(** * Runner: the train / validate / decode / report loop of [src/run.py]

    A shallow embedding of the control logic of [Runner] (construction,
    [train], [greedyDecode], [validate], [test]) together with the
    properties the specification states about it.

    Conventions of the embedding:
    - Python [int] is [Z]; lengths and loop indices that the source obtains
      from [len], [range] or [enumerate] are [nat].
    - Python exceptions are values of [exn]; a function that can raise
      returns a [result].
    - Python [float] / [numpy.float64] is [pyfloat]: a rational, one of
      the two infinities, or NaN.  Comparison is IEEE comparison (every
      comparison with NaN is false).
    - A Python [str] is a [string]: the sequence of the code units of its
      UTF-8 encoding.
    - The network, the alignment loss, the data loaders and the
      transcription encoder are external collaborators: they appear as
      parameters (oracles) of the functions that call them.  Log lines are
      events of a trace. *)

From Stdlib Require Import QArith Qcanon.
From stdpp Require Import numbers list strings gmap.

Local Open Scope Z_scope.

(** ** Exceptions and fallible computations *)

Module Py.

Inductive exn : Type :=
  | IndexError
  | AssertionError
  | RuntimeError
  | FileNotFoundError
  | AttributeError
  | TypeError.

Inductive result (A : Type) : Type :=
  | Ok (a : A)
  | Raise (e : exn).

Arguments Ok {A} a.
Arguments Raise {A} e.

#[global] Instance result_ret : MRet result := fun A a => Ok a.
#[global] Instance result_bind : MBind result := fun A B f m =>
  match m with
  | Ok a => f a
  | Raise e => Raise e
  end.

(** A [for] loop whose body may raise: the loop variable ranges over [l],
    the loop-carried state is [s]. *)
Fixpoint for_each {S A : Type} (body : S -> A -> result S) (s : S) (l : list A)
  : result S :=
  match l with
  | [] => Ok s
  | x :: l' => s' ← body s x; for_each body s' l'
  end.

(** [l[i]] for a non-negative index. *)
Definition getitem {A : Type} (l : list A) (i : nat) : result A :=
  match l !! i with
  | Some x => Ok x
  | None => Raise IndexError
  end.

(** [l[-1]] *)
Definition getlast {A : Type} (l : list A) : result A :=
  match last l with
  | Some x => Ok x
  | None => Raise IndexError
  end.

(** [range(n)] *)
Definition range (n : nat) : list nat := seq 0 n.

(** [enumerate(l)] *)
Definition enumerate {A : Type} (l : list A) : list (nat * A) :=
  zip (range (length l)) l.

End Py.

Import Py.

(** ** Python floats *)

Module Float.

(** A [float]: a finite value (every finite binary64 number is a rational),
    [+inf], [-inf] or NaN. *)
Inductive pyfloat : Type :=
  | Fin (q : Qc)
  | PInf
  | NInf
  | NaN.

Definition Qc_ltb (x y : Qc) : bool :=
  match (x ?= y)%Qc with Lt => true | _ => false end.

(** [a < b]; false as soon as one side is NaN. *)
Definition lt (a b : pyfloat) : bool :=
  match a, b with
  | NaN, _ | _, NaN => false
  | _, NInf => false
  | PInf, _ => false
  | NInf, _ => true
  | Fin _, PInf => true
  | Fin x, Fin y => Qc_ltb x y
  end.

(** [a > b] is [b < a]. *)
Definition gt (a b : pyfloat) : bool := lt b a.

(** [a + b]; opposite infinities give NaN. *)
Definition add (a b : pyfloat) : pyfloat :=
  match a, b with
  | NaN, _ | _, NaN => NaN
  | PInf, NInf | NInf, PInf => NaN
  | PInf, _ | _, PInf => PInf
  | NInf, _ | _, NInf => NInf
  | Fin x, Fin y => Fin (x + y)%Qc
  end.

(** [s / n] for an element count [n]; [0 / 0] is NaN and a non-zero value
    over [0] is an infinity of its sign. *)
Definition div_count (s : pyfloat) (n : nat) : pyfloat :=
  match s with
  | Fin x =>
      match n with
      | O => if bool_decide (x = 0%Qc) then NaN
             else if Qc_ltb 0%Qc x then PInf else NInf
      | S _ => Fin (x / Qc_of_Z (Z.of_nat n))%Qc
      end
  | PInf => PInf
  | NInf => NInf
  | NaN => NaN
  end.

Definition zero : pyfloat := Fin 0%Qc.

(** The sum of a list of floats, accumulated from [0.0] left to right. *)
Definition sum (l : list pyfloat) : pyfloat := fold_left add l zero.

(** [numpy.mean] of a list of floats: the sum over the count.  On the empty
    list this is [0.0 / 0], NaN.  The rounding of the binary64 operations is
    not represented: sums and quotients of finite values are exact. *)
Definition np_mean (l : list pyfloat) : pyfloat := div_count (sum l) (length l).

End Float.

Import Float.

(** ** Tensors of integers with two dimensions *)

Module Torch.

Record Tensor2 : Type := {
  size0 : nat;
  size1 : nat;
  entry : nat -> nat -> Z
}.

(** [list(t[i, :])] *)
Definition row (t : Tensor2) (i : nat) : list Z :=
  map (fun j => entry t i j) (range (size1 t)).

(** [list(t[:, i])] *)
Definition column (t : Tensor2) (i : nat) : list Z :=
  map (fun k => entry t k i) (range (size0 t)).

(** The stop position of the slice [x[:k]] of a sequence of length [len]:
    a negative [k] counts from the end, and the result is clipped to
    [0 .. len]. *)
Definition slice_stop (len : nat) (k : Z) : nat :=
  if bool_decide (k < 0) then Z.to_nat (Z.max 0 (k + Z.of_nat len))
  else Z.to_nat (Z.min k (Z.of_nat len)).

(** [x[:k]] *)
Definition slice_to (x : list Z) (k : Z) : list Z :=
  take (slice_stop (length x) k) x.

(** [torch.clamp(v, max=m)], element by element. *)
Definition clamp_max (v : list Z) (m : Z) : list Z := map (fun x => Z.min x m) v.

(** [v.sum().item()] *)
Definition tensor_sum (v : list Z) : Z := foldr Z.add 0 v.

(** [torch.cat(parts)] of one-dimensional tensors; an empty list of parts is
    refused. *)
Definition cat (parts : list (list Z)) : result (list Z) :=
  match parts with
  | [] => Raise RuntimeError
  | _ => Ok (concat parts)
  end.

(** What [torch.load] can return for a checkpoint file: a tensor, a number,
    or a dictionary with string keys. *)
#[warnings="-register-all"]
Inductive pyobj : Type :=
  | PTensor (shape : list nat) (data : list Z)
  | PInt (n : Z)
  | PDict (d : gmap string pyobj).

End Torch.

Import Torch.

(** ** Configuration and collaborators *)

Module Config.

(** Modelled from the spec: [DecodingMethod] is declared in
    [src/configuration], which is not part of the sources at hand.
    [run.py] names its member [GREEDY]; the specification speaks of
    "a different method" being configurable, so every other member is
    represented by its name. *)
Inductive DecodingMethod : Type :=
  | GREEDY
  | OtherMethod (name : string).

#[global] Instance DecodingMethod_eq_dec : EqDecision DecodingMethod.
Proof. solve_decision. Defined.

(** Modelled from the spec: [Configuration] is declared in
    [src/configuration], which is not part of the sources at hand.  These
    are the run parameters [run.py] reads: device, batch size, epoch count,
    gradient-clip norm, checkpoint and validation cadence, early-stopping
    patience, warmup epochs, decoding method, output directory and test
    model file name. *)
Record Configuration : Type := {
  device : string;
  batchSize : Z;
  epochs : Z;
  clipNorm : pyfloat;
  modelSaveEpoch : Z;
  validationEpoch : Z;
  earlyStoppingEpochCount : Z;
  warmup : Z;
  decodingMethod : DecodingMethod;
  outDir : string;
  testModelFileName : string
}.

(** [outDir / name] *)
Definition path_join (dir name : string) : string := dir +:+ "/" +:+ name.

(** Modelled from the spec: the transcription encoder is built by
    [getTranscriptionEncoder] in [src/utils/run_utils], which is not part
    of the sources at hand.  The specification gives its interface:
    [alphabetSize()], [decode(sequence) -> text] and
    [replace(text) -> normalizedText]. *)
Class TranscriptionEncoder : Type := {
  alphabetSize : Z;
  decode : list Z -> string;
  replace : string -> string
}.

(** Modelled from the spec: the network is built by [getModel] in
    [src/utils/run_utils], which is not part of the sources at hand; it is
    a [torch] module, of which [run.py] uses [load_state_dict] and [to]. *)
Class Network : Type := {
  Model : Type;
  getModel : Configuration -> Z -> Model;
  load_state_dict : Model -> pyobj -> result Model;
  to_device : Model -> string -> Model
}.

(** A batch as the loaders yield it.  The image pixels only ever reach the
    network, which is an oracle on the whole batch, so they have no field
    of their own. *)
Record Batch : Type := {
  transcription : Tensor2;
  t_len : list Z;
  transcription_plaintxt : list string;
  image_name : list string
}.

(** What the run reads from outside [run.py]. *)
Record Collaborators : Type := {
  (** the batches [self.trainDataloader] yields in an epoch *)
  trainDataloader : list Batch;
  (** the batches [self.evalDataloader] yields in a pass *)
  evalDataloader : list Batch;
  (** [loss.item()] of the training batch [batchId] of an epoch *)
  train_loss_item : Z -> nat -> Batch -> pyfloat;
  (** [loss.item()] in [validate] called during an epoch, given the batch,
      the flattened targets and the clamped target lengths *)
  val_loss_item : Z -> Batch -> list Z -> list Z -> pyfloat;
  (** the index tensor of [torch.max(self.model(image), dim=2)] at report
      time *)
  max_index_of : Batch -> Tensor2;
  (** the checkpoint files on disk, by path, as [torch.load] reads them *)
  checkpoints : gmap string pyobj
}.

End Config.

Import Config.

(** ** Greedy decoding (lines 166-182) *)

Module Greedy.

(** The body of the inner loop: [output[-1]] is compared with [char]. *)
Definition collapse_step (output : list Z) (char : Z) : result (list Z) :=
  prev ← getlast output;
  if bool_decide (char = prev) then Ok output else Ok (output ++ [char]).

(** Lines 172-178: from [previous = raw_prediction[0]] to the end of the
    inner loop; the value is [output]. *)
Definition collapse (raw_prediction : list Z) : result (list Z) :=
  previous ← getitem raw_prediction 0;
  for_each collapse_step [previous] (drop 1 raw_prediction).

(** [greedyDecode], from the index tensor [max_index] that
    [torch.max(predicted, dim=2)] returns: for a [predicted] of shape
    (T, N, C) it has shape (T, N), and [predicted.shape[1]] is its second
    dimension. *)
Definition greedyDecode `{TranscriptionEncoder} (max_index : Tensor2)
  : result (list string) :=
  for_each (fun ll i =>
              output ← collapse (column max_index i);
              Ok (ll ++ [decode output]))
           [] (range (size1 max_index)).

(** The sequences that loop hands to [transcriptionEncoder.decode], one per
    value of [i], in order. *)
Definition collapsed_columns (max_index : Tensor2) : result (list (list Z)) :=
  for_each (fun outs i =>
              output ← collapse (column max_index i);
              Ok (outs ++ [output]))
           [] (range (size1 max_index)).

(** *** What the specification says the collapse computes *)

(** Position [k] of [raw] survives when it is the first position or when its
    element differs from the element just before it. *)
Definition survives (raw : list Z) (k : nat) (x : Z) : bool :=
  match k with
  | O => true
  | S k' => negb (bool_decide (raw !! k' = Some x))
  end.

(** The sequence obtained from [raw] by removing exactly the elements that
    are equal to their immediate predecessor. *)
Definition without_adjacent_repeats (raw : list Z) : list Z :=
  omap id (imap (fun k x => if survives raw k x then Some x else None) raw).

(** The elements of [l] that survive when [prev] stands just before [l]. *)
Fixpoint keep_after (prev : Z) (l : list Z) : list Z :=
  match l with
  | [] => []
  | y :: l' =>
      if bool_decide (y = prev) then keep_after prev l' else y :: keep_after y l'
  end.

(** No two neighbours are equal. *)
Fixpoint no_adjacent_eq (l : list Z) : Prop :=
  match l with
  | [] => True
  | x :: l' => match l' with [] => True | y :: _ => x ≠ y end ∧ no_adjacent_eq l'
  end.

End Greedy.

Import Greedy.

(** ** The runner and its construction (lines 23-94) *)

Module Run.

Inductive EvalMode : Type :=
  | NONE
  | VALIDATION
  | TEST.

#[global] Instance EvalMode_eq_dec : EqDecision EvalMode.
Proof. solve_decision. Defined.

(** The attributes of [self] the methods below read or write.  The loaders
    and the loss are collaborators; the optimiser shows as trace events. *)
Record Runner `{Network} : Type := {
  config : Configuration;
  outFileName : string;
  model : Model;
  evalLogger : string;
  decode_fn : Tensor2 -> result (list string);
  bestValLoss : pyfloat;
  bestValLossEpoch : Z
}.

(** [torch.load(path)] *)
Definition torch_load (w : Collaborators) (path : string) : result pyobj :=
  match checkpoints w !! path with
  | Some obj => Ok obj
  | None => Raise FileNotFoundError
  end.

(** [state_dict.keys()]; a tensor or a number has no such attribute. *)
Definition keys (obj : pyobj) : result (gset string) :=
  match obj with
  | PDict d => Ok (dom d)
  | _ => Raise AttributeError
  end.

(** [state_dict[key]] for a key that is present. *)
Definition subscript (obj : pyobj) (key : string) : result pyobj :=
  match obj with
  | PDict d => match d !! key with Some v => Ok v | None => Raise IndexError end
  | _ => Raise TypeError
  end.

(** Lines 37-46: the model, with the checkpoint applied unless the mode is
    [NONE], moved to the configured device. *)
Definition init_model `{Network} `{TranscriptionEncoder}
    (config : Configuration) (evalMode : EvalMode) (w : Collaborators)
  : result Model :=
  let model := getModel config alphabetSize in
  model ←
    (if bool_decide (evalMode ≠ NONE) then
       state_dict ← torch_load w (path_join (outDir config) (testModelFileName config));
       ks ← keys state_dict;
       state_dict ←
         (if bool_decide ("model_state_dict" ∈ ks)
          then subscript state_dict "model_state_dict"
          else Ok state_dict);
       load_state_dict model state_dict
     else Ok model);
  Ok (to_device model (device config)).

(** Lines 78-83 *)
Definition init_evalLogger (evalMode : EvalMode) : string :=
  if bool_decide (evalMode = NONE) then "validation"
  else if bool_decide (evalMode = VALIDATION) then "eval_test"
  else "test".

(** Lines 85-88 *)
Definition init_decode `{TranscriptionEncoder} (config : Configuration)
  : Tensor2 -> result (list string) :=
  if bool_decide (decodingMethod config = GREEDY) then greedyDecode
  else greedyDecode.

(** [Runner.__init__] *)
Definition Runner_init `{Network} `{TranscriptionEncoder}
    (config : Configuration) (evalMode : EvalMode) (outFileName : string)
    (w : Collaborators) : result Runner :=
  model ← init_model config evalMode w;
  Ok {| config := config;
        outFileName := outFileName;
        model := model;
        evalLogger := init_evalLogger evalMode;
        decode_fn := init_decode config;
        bestValLoss := Float.PInf;
        bestValLossEpoch := 0 |}.

(** ** Validation (lines 184-221) *)

(** Lines 197-200: the per-example label prefixes, concatenated. *)
Definition flatten_targets (transcriptionTensor : Tensor2) (lengths : list Z)
  : result (list Z) :=
  parts ← for_each (fun parts i =>
                      k ← getitem lengths i;
                      Ok (parts ++ [slice_to (row transcriptionTensor i) k]))
                   [] (range (size0 transcriptionTensor));
  cat parts.

(** Lines 106-113: the flattened targets of a training batch, cut at the
    lengths as the loader gives them. *)
Definition train_targets (data : Batch) : result (list Z) :=
  flatten_targets (transcription data) (t_len data).

(** [safe_target_lengths] of a batch (lines 194-195). *)
Definition safe_target_lengths (data : Batch) : list Z :=
  let max_label_len := Z.of_nat (size1 (transcription data)) in
  clamp_max (t_len data) max_label_len.

(** The body of the loop of [validate]: the loss of one batch. *)
Definition validate_batch (w : Collaborators) (epoch : Z) (data : Batch)
  : result pyfloat :=
  let safe := safe_target_lengths data in
  encodedTranscription ← flatten_targets (transcription data) safe;
  if bool_decide (Z.of_nat (length encodedTranscription) = tensor_sum safe)
  then Ok (val_loss_item w epoch data encodedTranscription safe)
  else Raise AssertionError.

(** [validate], called during [epoch]. *)
Definition validate (w : Collaborators) (epoch : Z) : result pyfloat :=
  batchLosses ← for_each (fun batchLosses data =>
                            loss ← validate_batch w epoch data;
                            Ok (batchLosses ++ [loss]))
                         [] (evalDataloader w);
  Ok (np_mean batchLosses).

(** ** Training (lines 96-164) *)

Inductive event : Type :=
  | Backward (epoch : Z) (batchId : nat)
  | ClipGradNorm (epoch : Z) (batchId : nat)
  | OptimiserStep (epoch : Z) (batchId : nat)
  | ZeroGrad (epoch : Z) (batchId : nat)
  | LogEpoch (epoch : Z) (meanBatchLoss : pyfloat)
  | SaveEpochModel (epoch : Z)
  | LogValidation (epoch : Z) (meanBatchLoss : pyfloat)
  | SaveBestValLoss (epoch : Z)
  | StopTraining (epoch : Z).

#[global] Instance pyfloat_eq_dec : EqDecision pyfloat.
Proof. solve_decision. Defined.

#[global] Instance event_eq_dec : EqDecision event.
Proof. solve_decision. Defined.

(** Clip when configured, then step and zero the gradients. *)
Definition step_and_zero (cfg : Configuration) (epoch : Z) (batchId : nat)
  : list event :=
  (if gt (clipNorm cfg) zero then [ClipGradNorm epoch batchId] else [])
  ++ [OptimiserStep epoch batchId; ZeroGrad epoch batchId].

(** Lines 130-140 *)
Definition gradient_step (cfg : Configuration) (epoch : Z)
    (datasetsize : nat) (batchId : nat) : list event :=
  if bool_decide (batchSize cfg = 1) then
    if bool_decide (Z.of_nat batchId mod 5 = 4)
       || bool_decide (Z.of_nat batchId = Z.of_nat datasetsize - 1)
    then step_and_zero cfg epoch batchId
    else []
  else step_and_zero cfg epoch batchId.

(** Lines 104-142: the loop over the training batches of an epoch.  The
    tensor preparation, the forward pass and the loss (lines 105-127) are
    the oracle [train_loss_item]. *)
Definition train_batches (cfg : Configuration) (w : Collaborators) (epoch : Z)
  : list event * list pyfloat :=
  let datasetsize := length (trainDataloader w) in
  foldl (fun acc item =>
           let loss := train_loss_item w epoch item.1 item.2 in
           (acc.1 ++ Backward epoch item.1
                     :: gradient_step cfg epoch datasetsize item.1,
            acc.2 ++ [loss]))
        ([], []) (enumerate (trainDataloader w)).

Definition with_best `{Network} (r : Runner) (valLoss : pyfloat) (epoch : Z)
  : Runner :=
  {| config := config r;
     outFileName := outFileName r;
     model := model r;
     evalLogger := evalLogger r;
     decode_fn := decode_fn r;
     bestValLoss := valLoss;
     bestValLossEpoch := epoch |}.

(** The state the epoch loop carries: [self] and the trace so far. *)
Definition TrainState `{Network} : Type := Runner * list event.

(** One iteration of the epoch loop; the boolean tells whether it ended in
    [break]. *)
Definition train_epoch `{Network} (w : Collaborators) (st : TrainState)
    (epoch : Z) : result (TrainState * bool) :=
  let cfg := config st.1 in
  let '(evs, batchLosses) := train_batches cfg w epoch in
  let st : TrainState := (st.1, st.2 ++ evs ++ [LogEpoch epoch (np_mean batchLosses)]) in
  let st : TrainState :=
    if bool_decide (0 < epoch) && bool_decide (0 < modelSaveEpoch cfg)
       && bool_decide (epoch mod modelSaveEpoch cfg = 0)
    then (st.1, st.2 ++ [SaveEpochModel epoch]) else st in
  st ←
    (if bool_decide (0 < validationEpoch cfg)
        && bool_decide (epoch mod validationEpoch cfg = 0)
     then
       valLoss ← validate w epoch;
       let st : TrainState := (st.1, st.2 ++ [LogValidation epoch valLoss]) in
       if lt valLoss (bestValLoss st.1)
       then Ok (with_best st.1 valLoss epoch, st.2 ++ [SaveBestValLoss epoch])
       else Ok st
     else Ok st);
  if bool_decide (0 < earlyStoppingEpochCount cfg)
     && bool_decide (warmup cfg < epoch)
     && bool_decide (earlyStoppingEpochCount cfg ≤ epoch - bestValLossEpoch st.1)
  then Ok ((st.1, st.2 ++ [StopTraining epoch]), true)
  else Ok (st, false).

Fixpoint train_epochs `{Network} (w : Collaborators) (st : TrainState)
    (es : list Z) : result TrainState :=
  match es with
  | [] => Ok st
  | epoch :: rest =>
      '(st', stop) ← train_epoch w st epoch;
      if stop : bool then Ok st' else train_epochs w st' rest
  end.

(** [range(1, epochs + 1)] *)
Definition epoch_range (epochs : Z) : list Z :=
  map Z.of_nat (seq 1 (Z.to_nat epochs)).

(** [train]: the runner as the loop leaves it, and the trace. *)
Definition train `{Network} (r : Runner) (w : Collaborators) : result TrainState :=
  train_epochs w (r, []) (epoch_range (epochs (config r))).

End Run.

Import Run.

(** ** JSON text as [json.dump] produces it *)

Module Json.

#[warnings="-register-all"]
Inductive json : Type :=
  | JString (s : string)
  | JArray (items : list json)
  | JObject (members : list (string * json)).

Definition quote : string := String (Ascii.ascii_of_nat 34) EmptyString.
Definition backslash : string := String (Ascii.ascii_of_nat 92) EmptyString.
Definition newline : string := String (Ascii.ascii_of_nat 10) EmptyString.

Definition hex_digit (n : nat) : string :=
  match n with
  | 0 => "0" | 1 => "1" | 2 => "2" | 3 => "3" | 4 => "4" | 5 => "5"
  | 6 => "6" | 7 => "7" | 8 => "8" | 9 => "9" | 10 => "a" | 11 => "b"
  | 12 => "c" | 13 => "d" | 14 => "e" | _ => "f"
  end%nat.

(** The replacement of one character with [ensure_ascii=False]: the quote,
    the backslash and the control characters below 0x20 are escaped, every
    other character stands for itself. *)
Definition escape_char (c : Ascii.ascii) : string :=
  let n := Ascii.nat_of_ascii c in
  if (n =? 34)%nat then backslash +:+ quote
  else if (n =? 92)%nat then backslash +:+ backslash
  else if (n =? 10)%nat then backslash +:+ "n"
  else if (n =? 13)%nat then backslash +:+ "r"
  else if (n =? 9)%nat then backslash +:+ "t"
  else if (n =? 8)%nat then backslash +:+ "b"
  else if (n =? 12)%nat then backslash +:+ "f"
  else if (n <? 32)%nat
       then backslash +:+ "u00" +:+ hex_digit (n / 16) +:+ hex_digit (n mod 16)
  else String c EmptyString.

Fixpoint escape (s : string) : string :=
  match s with
  | EmptyString => EmptyString
  | String c s' => escape_char c +:+ escape s'
  end.

Definition encode_string (s : string) : string := quote +:+ escape s +:+ quote.

Definition spaces (n : nat) : string := String.concat EmptyString (replicate n " ").

(** A line break followed by the indentation of a nesting level. *)
Definition newline_indent (indent level : nat) : string :=
  newline +:+ spaces (indent * level).

(** The text of a value at a nesting level, for a numeric [indent]: items
    are separated by a comma and a line break, keys from values by a colon
    and a space; an empty container is written without a line break. *)
Fixpoint encode (indent level : nat) (v : json) : string :=
  match v with
  | JString s => encode_string s
  | JArray [] => "[]"
  | JArray items =>
      "[" +:+ newline_indent indent (S level)
      +:+ String.concat ("," +:+ newline_indent indent (S level))
                        (map (encode indent (S level)) items)
      +:+ newline_indent indent level +:+ "]"
  | JObject [] => "{}"
  | JObject members =>
      "{" +:+ newline_indent indent (S level)
      +:+ String.concat ("," +:+ newline_indent indent (S level))
                        (map (fun kv => encode_string kv.1 +:+ ": "
                                        +:+ encode indent (S level) kv.2)
                             members)
      +:+ newline_indent indent level +:+ "}"
  end.

(** [json.dump(v, f, indent=indent, ensure_ascii=False)]: the text written. *)
Definition dump (indent : nat) (v : json) : string := encode indent 0 v.

End Json.

Import Json.

(** ** The report pass (lines 240-280) *)

Module Report.

(** A transliteration record is a dictionary literal with string values;
    its keys are kept in their order of insertion. *)
Definition Transliteration : Type := list (string * string).

Record Accumulators : Type := {
  greedyPredictions : list string;
  originalExpectations : list string;
  encodedExpectations : list string;
  transliterations : list Transliteration
}.

Definition no_records : Accumulators :=
  {| greedyPredictions := []; originalExpectations := [];
     encodedExpectations := []; transliterations := [] |}.

(** The body of the loop over [idx] (lines 260-267). *)
Definition test_example `{TranscriptionEncoder}
    (results plaintextTranscription imageName : list string)
    (acc : Accumulators) (idx : nat) : result Accumulators :=
  greedy ← getitem results idx;
  plain ← getitem plaintextTranscription idx;
  let encodedTranscription := replace plain in
  name ← getitem imageName idx;
  Ok {| greedyPredictions := greedyPredictions acc ++ [greedy];
        originalExpectations := originalExpectations acc ++ [plain];
        encodedExpectations := encodedExpectations acc ++ [encodedTranscription];
        transliterations :=
          transliterations acc
          ++ [[("greedy", greedy); ("expected", plain);
               ("expected_encoded", encodedTranscription);
               ("image_name", name)]] |}.

(** The body of the loop over the evaluation batches (lines 250-267). *)
Definition test_batch `{Network} `{TranscriptionEncoder}
    (r : Runner) (w : Collaborators) (acc : Accumulators) (data : Batch)
  : result Accumulators :=
  let plaintextTranscription := transcription_plaintxt data in
  let imageName := image_name data in
  results ← decode_fn r (max_index_of w data);
  for_each (test_example results plaintextTranscription imageName) acc
           (range (Nat.min (length results) (length plaintextTranscription))).

(** The four lists after the loop over the evaluation batches. *)
Definition test_pass `{Network} `{TranscriptionEncoder}
    (r : Runner) (w : Collaborators) : result Accumulators :=
  for_each (test_batch r w) no_records (evalDataloader w).

Definition json_of_record (t : Transliteration) : json :=
  JObject (map (fun kv => (kv.1, JString kv.2)) t).

(** [test]: the path of the report file and the text written to it.  The
    error rates computed from the three parallel lists are only logged. *)
Definition test `{Network} `{TranscriptionEncoder}
    (r : Runner) (w : Collaborators) : result (string * string) :=
  acc ← test_pass r w;
  Ok (path_join (outDir (config r)) (outFileName r),
      dump 4 (JArray (map json_of_record (transliterations acc)))).

End Report.

Import Report.

(** ** Score extraction (lines 223-238) *)

Module Scores.

Definition slash : Ascii.ascii := Ascii.ascii_of_nat 47.

(** [s.split('/')[-1]]: the characters after the last slash. *)
Definition last_segment (s : list Ascii.ascii) : list Ascii.ascii :=
  foldl (fun seg c => if bool_decide (c = slash) then [] else seg ++ [c]) [] s.

(** [s[:-4]] *)
Definition all_but_last4 (s : list Ascii.ascii) : list Ascii.ascii :=
  take (length s - 4) s.

(** [f"{imageName.split('/')[-1][:-4]}.pt"] *)
Definition score_file_name (imageName : string) : string :=
  String.string_of_list_ascii
    (all_but_last4 (last_segment (String.list_ascii_of_string imageName)))
  +:+ ".pt".

(** A file written by [torch.save]: its path, and the slice
    [predicted[:, idx, :]] it holds, named by the batch and [idx]. *)
Definition ScoreFile : Type := string * (nat * nat).

(** The body of the loop over [idx] (lines 237-238); [predicted.shape[1]] is
    the second dimension of the index tensor of the same model output. *)
Definition extract_example (scoresDir : string) (w : Collaborators)
    (batchId : nat) (data : Batch) (written : list ScoreFile) (idx : nat)
  : result (list ScoreFile) :=
  name ← getitem (image_name data) idx;
  let outName := path_join scoresDir (score_file_name name) in
  if bool_decide (idx < size1 (max_index_of w data))%nat
  then Ok (written ++ [(outName, (batchId, idx))])
  else Raise IndexError.

(** [extractCtcScores]: the files written, in order. *)
Definition extractCtcScores `{Network} (r : Runner) (w : Collaborators)
  : result (list ScoreFile) :=
  let scoresDir := path_join (outDir (config r)) "scores" in
  for_each (fun written item =>
              for_each (extract_example scoresDir w item.1 item.2) written
                       (range (length (image_name item.2))))
           [] (enumerate (evalDataloader w)).

(** The files of a batch: one per image name, in order. *)
Definition batch_score_files (scoresDir : string) (batchId : nat) (data : Batch)
  : list ScoreFile :=
  imap (fun idx name => (path_join scoresDir (score_file_name name), (batchId, idx)))
       (image_name data).

(** The directory after the writes: a later write to a path replaces an
    earlier one. *)
Definition files_after (writes : list ScoreFile) : gmap string (nat * nat) :=
  foldl (fun m kv => <[kv.1 := kv.2]> m) ∅ writes.

End Scores.

Import Scores.

(** ** Observations on traces, and the vocabulary of the statements *)

Module Trace.

Definition optimiser_steps (tr : list event) : list (Z * nat) :=
  omap (fun ev => match ev with OptimiserStep e i => Some (e, i) | _ => None end) tr.

Definition logged_epochs (tr : list event) : list Z :=
  omap (fun ev => match ev with LogEpoch e _ => Some e | _ => None end) tr.

Definition logged_means (tr : list event) : list (Z * pyfloat) :=
  omap (fun ev => match ev with LogEpoch e m => Some (e, m) | _ => None end) tr.

Definition saved_epochs (tr : list event) : list Z :=
  omap (fun ev => match ev with SaveEpochModel e => Some e | _ => None end) tr.

Definition validations (tr : list event) : list (Z * pyfloat) :=
  omap (fun ev => match ev with LogValidation e v => Some (e, v) | _ => None end) tr.

Definition saved_best (tr : list event) : list Z :=
  omap (fun ev => match ev with SaveBestValLoss e => Some e | _ => None end) tr.

Definition stops (tr : list event) : list Z :=
  omap (fun ev => match ev with StopTraining e => Some e | _ => None end) tr.

(** The batches on which the optimiser is to step, in the words of the
    specification: every batch unless the batch size is 1, and then every
    fifth batch and the last one. *)
Definition stepping (cfg : Configuration) (datasetsize : nat) (i : nat) : bool :=
  bool_decide (batchSize cfg ≠ 1)
  || bool_decide (i mod 5 = 4)%nat
  || bool_decide (S i = datasetsize).

(** The pairs (epoch, batch) of the optimiser steps of the epochs [es]. *)
Definition steps_of_epochs (cfg : Configuration) (datasetsize : nat) (es : list Z)
  : list (Z * nat) :=
  flat_map (fun e => map (fun i => (e, i))
                         (filter (fun i => stepping cfg datasetsize i)
                                 (range datasetsize))) es.

(** The losses of the training batches of an epoch, in order. *)
Definition train_losses (w : Collaborators) (epoch : Z) : list pyfloat :=
  map (fun item => train_loss_item w epoch item.1 item.2)
      (enumerate (trainDataloader w)).

End Trace.

Import Trace.

Module Tracking.

(** One validation result against the best so far. *)
Definition track (b : pyfloat * Z) (ev : Z * pyfloat) : pyfloat * Z :=
  if lt ev.2 b.1 then (ev.2, ev.1) else b.

(** The best loss and its epoch after the validation results [vs], in the
    words of the specification: from (+inf, 0), replaced by every result
    that is strictly smaller. *)
Definition running_best (vs : list (Z * pyfloat)) : pyfloat * Z :=
  foldl track (PInf, 0) vs.

(** The epochs whose validation loss is strictly below [best] and below
    every earlier result. *)
Fixpoint improvements (best : pyfloat) (vs : list (Z * pyfloat)) : list Z :=
  match vs with
  | [] => []
  | ev :: vs' =>
      if lt ev.2 best then ev.1 :: improvements ev.2 vs' else improvements best vs'
  end.

(** The validation cadence. *)
Definition validates (cfg : Configuration) (e : Z) : bool :=
  bool_decide (0 < validationEpoch cfg) && bool_decide (e mod validationEpoch cfg = 0).

(** The cadence of the epoch checkpoints. *)
Definition checkpointed (cfg : Configuration) (e : Z) : bool :=
  bool_decide (0 < e) && bool_decide (0 < modelSaveEpoch cfg)
  && bool_decide (e mod modelSaveEpoch cfg = 0).

(** The validation results of the epochs [es], for validation losses [v]. *)
Definition validated (cfg : Configuration) (v : Z -> pyfloat) (es : list Z)
  : list (Z * pyfloat) :=
  map (fun e => (e, v e)) (filter (fun e => validates cfg e) es).

Definition stop_condition (cfg : Configuration) (e bestEpoch : Z) : Prop :=
  0 < earlyStoppingEpochCount cfg ∧ warmup cfg < e
  ∧ earlyStoppingEpochCount cfg ≤ e - bestEpoch.

(** The stop condition at epoch [e], with the best epoch that the
    validations of the epochs [1 .. e] leave. *)
Definition stops_at (cfg : Configuration) (v : Z -> pyfloat) (e : Z) : Prop :=
  stop_condition cfg e (running_best (validated cfg v (epoch_range e))).2.

Definition first_stop (cfg : Configuration) (v : Z -> pyfloat) (e : Z) : Prop :=
  1 ≤ e ≤ epochs cfg ∧ stops_at cfg v e
  ∧ ∀ e', 1 ≤ e' < e → ¬ stops_at cfg v e'.

Definition best `{Network} (r : Runner) : pyfloat * Z :=
  (bestValLoss r, bestValLossEpoch r).

(** The stop condition at the [i]-th epoch from [a], for a loop that
    enters epoch [a] with the best pair [b]. *)
Definition stop_from (cfg : Configuration) (v : Z -> pyfloat)
    (b : pyfloat * Z) (a i : nat) : Prop :=
  stop_condition cfg (Z.of_nat (a + i))
    (foldl track b (validated cfg v (map Z.of_nat (seq a (S i))))).2.

End Tracking.

Import Tracking.

Module Batches.

(** A batch as the loader builds it: at least one example, one target
    length per example, no negative length. *)
Definition well_formed (data : Batch) : Prop :=
  (1 ≤ size0 (transcription data))%nat
  ∧ length (t_len data) = size0 (transcription data)
  ∧ Forall (fun k => 0 ≤ k) (t_len data).

(** The parts that [flatten_targets] concatenates. *)
Definition target_parts (t : Tensor2) (lengths : list Z) : list (list Z) :=
  map (fun i => slice_to (row t i) (default 0 (lengths !! i))) (range (size0 t)).

End Batches.

Import Batches.

Module Records.

Section Records.
Context `{TranscriptionEncoder}.

(** The record of one example, as the specification describes it. *)
Definition record_of (greedy plain name : string) : Transliteration :=
  [("greedy", greedy); ("expected", plain);
   ("expected_encoded", replace plain); ("image_name", name)].

(** The record of example [idx] of a batch, when the three lists reach
    that far. *)
Definition record_at (results plain names : list string) (idx : nat)
  : option Transliteration :=
  g ← results !! idx; p ← plain !! idx; nm ← names !! idx;
  Some (record_of g p nm).

(** One record per example index below the shorter of the decoded results
    and the plaintexts. *)
Definition batch_records (results plain names : list string)
  : list Transliteration :=
  omap (record_at results plain names)
       (range (Nat.min (length results) (length plain))).

Definition pass_records (batches : list Batch) (decoded : list (list string))
  : list Transliteration :=
  concat (zip_with (fun data results =>
                      batch_records results (transcription_plaintxt data)
                                    (image_name data))
                   batches decoded).

(** A batch whose examples all reach the report. *)
Definition reported `{Network} (r : Runner) (w : Collaborators) (data : Batch)
    (results : list string) : Prop :=
  decode_fn r (max_index_of w data) = Ok results
  ∧ (Nat.min (length results) (length (transcription_plaintxt data))
     ≤ length (image_name data))%nat.

(** One member of a record: the key, a colon and a space, the value. *)
Definition member_text (key value : string) : string :=
  encode_string key +:+ ": " +:+ encode_string value.

(** The text of a record inside the report array: its members on lines of
    their own at the second nesting level, its closing brace at the
    first. *)
Definition record_text (greedy plain name : string) : string :=
  "{" +:+ newline_indent 4 2
  +:+ (member_text "greedy" greedy +:+ ("," +:+ newline_indent 4 2)
       +:+ member_text "expected" plain +:+ ("," +:+ newline_indent 4 2)
       +:+ member_text "expected_encoded" (replace plain)
       +:+ ("," +:+ newline_indent 4 2)
       +:+ member_text "image_name" name)
  +:+ newline_indent 4 1 +:+ "}".

(** The text of the report for a non-empty list of record texts. *)
Definition array_text (records : list string) : string :=
  "[" +:+ newline_indent 4 1
  +:+ String.concat ("," +:+ newline_indent 4 1) records
  +:+ newline_indent 4 0 +:+ "]".
End Records.

End Records.

Import Records.

(** ** Sample collaborators, for the examples *)

Module Samples.

(** An encoder over the lower-case letters: index [i] is the [i]-th letter. *)
#[export] Instance letters : TranscriptionEncoder := {|
  alphabetSize := 27;
  decode := fun l =>
    String.string_of_list_ascii
      (map (fun i => Ascii.ascii_of_nat (96 + Z.to_nat i)) l);
  replace := fun s => s
|}.

(** A network that only remembers the state it was given and its device. *)
Record ToyModel : Type := {
  weights : option pyobj;
  on_device : string
}.

#[export] Instance toy_network : Network := {|
  Model := ToyModel;
  getModel := fun _ _ => {| weights := None; on_device := "cpu" |};
  load_state_dict := fun m sd =>
    match sd with
    | PDict _ => Ok {| weights := Some sd; on_device := on_device m |}
    | _ => Raise TypeError
    end;
  to_device := fun m dev => {| weights := weights m; on_device := dev |}
|}.

Definition sample_config (epochs : Z) : Configuration := {|
  device := "cuda";
  batchSize := 1;
  epochs := epochs;
  clipNorm := Fin 1%Qc;
  modelSaveEpoch := 5;
  validationEpoch := 1;
  earlyStoppingEpochCount := 2;
  warmup := 0;
  decodingMethod := OtherMethod "beam";
  outDir := "out";
  testModelFileName := "best_val_loss.pth"
|}.

(** Two examples with labels padded to width 3. *)
Definition sample_batch : Batch := {|
  transcription :=
    {| size0 := 2; size1 := 3;
       entry := fun i j => nth j (nth i [[1; 2; 0]; [1; 2; 3]] []) 0 |};
  t_len := [2; 3];
  transcription_plaintxt := ["ab"; "abc"];
  image_name := ["lines/a.png"; "lines/b.png"]
|}.

(** A batch whose length metadata is negative. *)
Definition corrupt_batch : Batch := {|
  transcription := {| size0 := 1; size1 := 3; entry := fun _ j => Z.of_nat j |};
  t_len := [-1];
  transcription_plaintxt := ["ab"];
  image_name := ["lines/c.png"]
|}.

(** Four timesteps for two batch elements. *)
Definition sample_output : Tensor2 := {|
  size0 := 4; size1 := 2;
  entry := fun t i => nth t (nth i [[1; 1; 2; 1]; [3; 3; 3; 3]] []) 0
|}.

Definition no_timesteps : Tensor2 :=
  {| size0 := 0; size1 := 2; entry := fun _ _ => 0 |}.

Definition empty_output : Tensor2 :=
  {| size0 := 0; size1 := 0; entry := fun _ _ => 0 |}.

Definition decimal (n : Z) (d : positive) : pyfloat := Fin (Q2Qc (Qmake n d)).

(** Validation losses 3.0, 2.5, 2.6, 2.4, then 2.7 and 2.8. *)
Definition sample_loss (epoch : Z) : pyfloat :=
  nth (Z.to_nat epoch - 1)
      [decimal 3 1; decimal 5 2; decimal 13 5; decimal 12 5; decimal 27 10]
      (decimal 14 5).

Definition wrapped_checkpoint : pyobj :=
  PDict {[ "model_state_dict" := PDict {[ "fc.weight" := PTensor [2%nat] [7; 9] ]};
           "epoch" := PInt 4 ]}.

Definition flat_checkpoint : pyobj :=
  PDict {[ "fc.weight" := PTensor [2%nat] [7; 9] ]}.

Definition sample_world (evalBatches : list Batch) (file : pyobj) : Collaborators := {|
  trainDataloader := replicate 7 sample_batch;
  evalDataloader := evalBatches;
  train_loss_item := fun _ _ _ => decimal 1 1;
  val_loss_item := fun epoch _ _ _ => sample_loss epoch;
  max_index_of := fun _ => sample_output;
  checkpoints := {[ "out/best_val_loss.pth" := file ]}
|}.

Definition sample_runner (epochs : Z) : Runner := {|
  config := sample_config epochs;
  outFileName := "test.json";
  model := {| weights := None; on_device := "cuda" |};
  evalLogger := "validation";
  decode_fn := init_decode (sample_config epochs);
  bestValLoss := PInf;
  bestValLossEpoch := 0
|}.

(** A run without validation, with a patience of 3 epochs. *)
Definition unvalidated_config : Configuration := {|
  device := "cuda";
  batchSize := 1;
  epochs := 5;
  clipNorm := Fin 1%Qc;
  modelSaveEpoch := 0;
  validationEpoch := 0;
  earlyStoppingEpochCount := 3;
  warmup := 0;
  decodingMethod := GREEDY;
  outDir := "out";
  testModelFileName := "best_val_loss.pth"
|}.

(** A run of 7 validated epochs without early stopping. *)
Definition tireless_config : Configuration := {|
  device := "cuda";
  batchSize := 1;
  epochs := 7;
  clipNorm := Fin 1%Qc;
  modelSaveEpoch := 5;
  validationEpoch := 1;
  earlyStoppingEpochCount := 0;
  warmup := 0;
  decodingMethod := GREEDY;
  outDir := "out";
  testModelFileName := "best_val_loss.pth"
|}.

(** The runner the constructor builds in mode [NONE]. *)
Definition fresh_runner (cfg : Configuration) : Runner := {|
  config := cfg;
  outFileName := "test.json";
  model := {| weights := None; on_device := device cfg |};
  evalLogger := "validation";
  decode_fn := init_decode cfg;
  bestValLoss := PInf;
  bestValLossEpoch := 0
|}.

(** No training batch and no checkpoint file. *)
Definition idle_world : Collaborators := {|
  trainDataloader := [];
  evalDataloader := [sample_batch];
  train_loss_item := fun _ _ _ => decimal 1 1;
  val_loss_item := fun epoch _ _ _ => sample_loss epoch;
  max_index_of := fun _ => sample_output;
  checkpoints := ∅
|}.

(** A model whose output has no timestep. *)
Definition mute_world (evalBatches : list Batch) : Collaborators := {|
  trainDataloader := replicate 7 sample_batch;
  evalDataloader := evalBatches;
  train_loss_item := fun _ _ _ => decimal 1 1;
  val_loss_item := fun epoch _ _ _ => sample_loss epoch;
  max_index_of := fun _ => no_timesteps;
  checkpoints := ∅
|}.

(** A batch without examples. *)
Definition no_examples : Batch := {|
  transcription := {| size0 := 0; size1 := 3; entry := fun _ _ => 0 |};
  t_len := [];
  transcription_plaintxt := [];
  image_name := []
|}.

(** Two examples, one target length. *)
Definition short_lengths : Batch := {|
  transcription := transcription sample_batch;
  t_len := [2];
  transcription_plaintxt := ["ab"; "abc"];
  image_name := ["lines/a.png"; "lines/b.png"]
|}.

(** Two plaintexts, one image name. *)
Definition unnamed_batch : Batch := {|
  transcription := transcription sample_batch;
  t_len := [2; 3];
  transcription_plaintxt := ["ab"; "abc"];
  image_name := ["lines/a.png"]
|}.

(** Three image names for a model output with two columns. *)
Definition crowded_batch : Batch := {|
  transcription := transcription sample_batch;
  t_len := [2; 3];
  transcription_plaintxt := ["ab"; "abc"];
  image_name := ["lines/a.png"; "lines/b.png"; "lines/c.png"]
|}.

(** Two images with the same base name in different directories. *)
Definition twin_batch : Batch := {|
  transcription := transcription sample_batch;
  t_len := [2; 3];
  transcription_plaintxt := ["ab"; "abc"];
  image_name := ["train/x.png"; "test/x.jpg"]
|}.

End Samples.


(** * Properties *)

(** ** Loops and sequences *)

Lemma getlast_snoc {A} (l : list A) (x : A) : getlast (l ++ [x]) = Ok x.
Proof. unfold getlast. by rewrite last_snoc. Qed.

Lemma for_each_cons {S A} (body : S → A → result S) s x l :
  for_each body s (x :: l) = body s x ≫= λ s', for_each body s' l.
Proof. reflexivity. Qed.

Lemma collapse_step_snoc (pre : list Z) (x y : Z) :
  collapse_step (pre ++ [x]) y
  = if bool_decide (y = x) then Ok (pre ++ [x]) else Ok ((pre ++ [x]) ++ [y]).
Proof. unfold collapse_step. by rewrite getlast_snoc. Qed.

Lemma collapse_loop (l : list Z) : ∀ pre x,
  for_each collapse_step (pre ++ [x]) l = Ok (pre ++ x :: keep_after x l).
Proof.
  induction l as [|y l IH]; intros pre x; [done|].
  rewrite for_each_cons, collapse_step_snoc. cbn [keep_after].
  case_bool_decide as Hy; cbn [mbind result_bind].
  - apply IH.
  - rewrite IH. by rewrite <- (assoc_L (++)).
Qed.

Lemma collapse_cons (x : Z) (l : list Z) : collapse (x :: l) = Ok (x :: keep_after x l).
Proof. unfold collapse. simpl. rewrite drop_0. apply (collapse_loop l [] x). Qed.

Lemma omap_id_cons {A} (o : option A) (l : list (option A)) :
  omap id (o :: l) = match o with Some x => x :: omap id l | None => omap id l end.
Proof. reflexivity. Qed.

Lemma survivors_after (l : list Z) : ∀ pre p,
  omap id (imap (fun k y => if survives (pre ++ p :: l) (S (length pre + k)) y
                            then Some y else None) l)
  = keep_after p l.
Proof.
  induction l as [|y l IH]; intros pre p; [done|].
  rewrite imap_cons, omap_id_cons.
  assert (Hlook : (pre ++ p :: y :: l) !! (length pre + 0)%nat = Some p).
  { rewrite lookup_app_r by lia. by replace (length pre + 0 - length pre)%nat with 0%nat by lia. }
  assert (Htail :
    omap id (imap ((fun k y0 => if survives (pre ++ p :: y :: l) (S (length pre + k)) y0
                                then Some y0 else None) ∘ S) l) = keep_after y l).
  { rewrite <- (IH (pre ++ [p]) y). f_equal. apply imap_ext. intros k z _. simpl.
    rewrite <- (assoc_L (++)). simpl. rewrite length_app. simpl.
    by replace (length pre + 1 + k)%nat with (length pre + S k)%nat by lia. }
  rewrite Htail. cbn [survives]. rewrite Hlook. cbn [keep_after].
  case_bool_decide as Hy; case_bool_decide as Hy'; simpl; congruence.
Qed.

Lemma without_adjacent_repeats_cons (x : Z) (l : list Z) :
  without_adjacent_repeats (x :: l) = x :: keep_after x l.
Proof.
  unfold without_adjacent_repeats. rewrite imap_cons. simpl. f_equal.
  apply (survivors_after l [] x).
Qed.

Lemma keep_after_no_adjacent (l : list Z) : ∀ x, no_adjacent_eq (x :: keep_after x l).
Proof.
  induction l as [|y l IH]; intros x; simpl; [done|].
  case_bool_decide as Hy.
  - apply IH.
  - split; [congruence|]. apply IH.
Qed.

Lemma keep_after_id (l : list Z) : ∀ x, no_adjacent_eq (x :: l) → keep_after x l = l.
Proof.
  induction l as [|y l IH]; intros x [Hxy Hl]; simpl; [done|].
  rewrite bool_decide_false by congruence. f_equal. by apply IH.
Qed.

Lemma keep_after_length (l : list Z) : ∀ x, (length (keep_after x l) ≤ length l)%nat.
Proof.
  induction l as [|y l IH]; intros x; simpl; [lia|].
  case_bool_decide; simpl; [specialize (IH x)|specialize (IH y)]; lia.
Qed.

(** C2: the collapse of a raw index sequence removes exactly the elements
    that are equal to their immediate predecessor: the result has no two
    equal neighbours, a sequence without equal neighbours is returned as it
    is, whatever it repeats further apart, and collapsing a collapsed
    sequence changes nothing; [2,2,5,5,5,0,7,7] gives [2,5,0,7], which
    collapses to itself. *)
Theorem collapse_merges_adjacent_duplicates :
  (∀ (x : Z) (l : list Z),
      let raw := x :: l in
      collapse raw = Ok (without_adjacent_repeats raw)
      ∧ no_adjacent_eq (without_adjacent_repeats raw)
      ∧ collapse (without_adjacent_repeats raw) = Ok (without_adjacent_repeats raw)
      ∧ (no_adjacent_eq raw → collapse raw = Ok raw))
  ∧ collapse [2; 2; 5; 5; 5; 0; 7; 7] = Ok [2; 5; 0; 7]
  ∧ collapse [2; 5; 0; 7] = Ok [2; 5; 0; 7].
Proof.
  split; [|split; reflexivity].
  intros x l raw. unfold raw. rewrite without_adjacent_repeats_cons, !collapse_cons.
  split; [done|]. split; [apply keep_after_no_adjacent|]. split.
  - f_equal. f_equal. apply keep_after_id, keep_after_no_adjacent.
  - intros Hraw. f_equal. f_equal. by apply keep_after_id.
Qed.


Section Loops.
Context {S A B : Type}.

(** A loop that appends one computed item per iteration. *)
Lemma for_each_append (f : A → result B) (h : A → B) (g : B → S) (l : list A) :
  ∀ acc : list S,
    Forall (λ i, f i = Ok (h i)) l →
    for_each (λ acc i, o ← f i; Ok (acc ++ [g o])) acc l
    = Ok (acc ++ map (g ∘ h) l).
Proof.
  induction l as [|i l IH]; intros acc Hl.
  - simpl. by rewrite (right_id_L [] (++)).
  - inversion_clear Hl as [|?? Hi Hl']. rewrite for_each_cons, Hi.
    cbn [mbind result_bind]. rewrite IH by done.
    by rewrite <- (assoc_L (++)).
Qed.

Lemma for_each_raise_first (f : A → result B) (g : B → S) (e : exn) i l acc :
  f i = Raise e →
  for_each (λ acc i, o ← f i; Ok (acc ++ [g o])) acc (i :: l) = Raise e.
Proof. intros Hi. by rewrite for_each_cons, Hi. Qed.
End Loops.

Lemma column_length (m : Tensor2) (i : nat) : length (column m i) = size0 m.
Proof. unfold column, range. by rewrite length_map, length_seq. Qed.

Lemma column_cons (m : Tensor2) (i : nat) :
  (1 ≤ size0 m)%nat →
  column m i = entry m 0 i :: map (λ k, entry m k i) (seq 1 (size0 m - 1)).
Proof.
  intros HT. unfold column, range. destruct (size0 m) as [|n]; [lia|].
  simpl. by rewrite Nat.sub_0_r.
Qed.

Lemma collapse_column (m : Tensor2) (i : nat) :
  (1 ≤ size0 m)%nat →
  collapse (column m i) = Ok (without_adjacent_repeats (column m i)).
Proof.
  intros HT. rewrite (column_cons m i HT).
  by rewrite collapse_cons, without_adjacent_repeats_cons.
Qed.

Lemma without_adjacent_repeats_props (x : Z) (l : list Z) :
  let out := without_adjacent_repeats (x :: l) in
  out ≠ [] ∧ (length out ≤ length (x :: l))%nat ∧ no_adjacent_eq out.
Proof.
  cbn zeta. rewrite without_adjacent_repeats_cons. split; [done|]. split.
  - simpl. pose proof (keep_after_length l x). lia.
  - apply keep_after_no_adjacent.
Qed.

Lemma collapsed_columns_ok (m : Tensor2) :
  (1 ≤ size0 m)%nat →
  collapsed_columns m
  = Ok (map (λ i, without_adjacent_repeats (column m i)) (range (size1 m))).
Proof.
  intros HT. unfold collapsed_columns.
  rewrite (for_each_append (λ i, collapse (column m i))
             (λ i, without_adjacent_repeats (column m i)) id).
  - done.
  - apply Forall_forall. intros i _. by apply collapse_column.
Qed.

Lemma greedyDecode_ok `{TranscriptionEncoder} (m : Tensor2) :
  (1 ≤ size0 m)%nat →
  greedyDecode m
  = Ok (map decode (map (λ i, without_adjacent_repeats (column m i)) (range (size1 m)))).
Proof.
  intros HT. unfold greedyDecode.
  rewrite (for_each_append (λ i, collapse (column m i))
             (λ i, without_adjacent_repeats (column m i)) decode).
  - by rewrite list_fmap_compose.
  - apply Forall_forall. intros i _. by apply collapse_column.
Qed.

(** C9: for a model output with at least one timestep, each sequence that
    [greedyDecode] hands to the encoder is non-empty, no longer than the
    number of timesteps and free of equal neighbours, and there is one per
    batch element; with no timestep and at least one batch element the
    function raises [IndexError]; with no batch element it returns the
    empty list. *)
Theorem greedyDecode_timesteps `{TranscriptionEncoder} (m : Tensor2) :
  ((1 ≤ size0 m)%nat →
     ∃ outs : list (list Z),
       collapsed_columns m = Ok outs
       ∧ greedyDecode m = Ok (map decode outs)
       ∧ length outs = size1 m
       ∧ Forall (λ out, out ≠ [] ∧ (length out ≤ size0 m)%nat ∧ no_adjacent_eq out) outs)
  ∧ (size0 m = 0%nat → (1 ≤ size1 m)%nat → greedyDecode m = Raise IndexError)
  ∧ (size1 m = 0%nat → greedyDecode m = Ok []).
Proof.
  split; [|split].
  - intros HT. eexists. split; [by apply collapsed_columns_ok|].
    split; [by apply greedyDecode_ok|]. split.
    + unfold range. by rewrite length_map, length_seq.
    + apply Forall_forall. intros out [i [-> _]]%list_elem_of_fmap.
      rewrite <- (column_length m i). rewrite (column_cons m i HT).
      apply without_adjacent_repeats_props.
  - intros HT HN. unfold greedyDecode, range.
    destruct (size1 m) as [|n]; [lia|]. cbn [seq].
    apply for_each_raise_first. unfold column. by rewrite HT.
  - intros HN. unfold greedyDecode. by rewrite HN.
Qed.


(** ** The gradient step policy *)

Lemma gradient_step_stepping cfg epoch n i :
  gradient_step cfg epoch n i
  = if stepping cfg n i then step_and_zero cfg epoch i else [].
Proof.
  unfold gradient_step, stepping.
  assert (bool_decide (Z.of_nat i mod 5 = 4) = bool_decide (i mod 5 = 4)%nat) as ->.
  { apply bool_decide_ext. change 5 with (Z.of_nat 5). rewrite <- Nat2Z.inj_mod. lia. }
  assert (bool_decide (Z.of_nat i = Z.of_nat n - 1) = bool_decide (S i = n)) as ->.
  { apply bool_decide_ext. lia. }
  destruct (decide (batchSize cfg = 1)) as [Hb|Hb].
  - rewrite (bool_decide_true _ Hb), (bool_decide_false (batchSize cfg ≠ 1)) by tauto.
    done.
  - by rewrite (bool_decide_false _ Hb), (bool_decide_true (batchSize cfg ≠ 1)) by done.
Qed.

Lemma train_batches_loop cfg w epoch n (l : list Batch) :
  ∀ a (acc : list event * list pyfloat),
    (foldl (fun acc item =>
              let loss := train_loss_item w epoch item.1 item.2 in
              (acc.1 ++ Backward epoch item.1 :: gradient_step cfg epoch n item.1,
               acc.2 ++ [loss]))
           acc (zip (seq a (length l)) l)).1
    = acc.1 ++ flat_map (λ i, Backward epoch i :: gradient_step cfg epoch n i)
                        (seq a (length l)).
Proof.
  induction l as [|b l IH]; intros a acc.
  - simpl. by rewrite (right_id_L [] (++)).
  - cbn [length seq zip zip_with foldl flat_map]. rewrite IH. cbn [fst snd].
    by rewrite <- (assoc_L (++)).
Qed.

Lemma train_batches_events cfg w epoch :
  (train_batches cfg w epoch).1
  = flat_map (λ i, Backward epoch i
                   :: gradient_step cfg epoch (length (trainDataloader w)) i)
             (range (length (trainDataloader w))).
Proof. unfold train_batches, enumerate, range. by rewrite train_batches_loop. Qed.

Lemma optimiser_steps_app tr1 tr2 :
  optimiser_steps (tr1 ++ tr2) = optimiser_steps tr1 ++ optimiser_steps tr2.
Proof. apply omap_app. Qed.

Lemma optimiser_steps_batch cfg epoch n i :
  optimiser_steps (Backward epoch i :: gradient_step cfg epoch n i)
  = if stepping cfg n i then [(epoch, i)] else [].
Proof.
  rewrite gradient_step_stepping. unfold step_and_zero.
  destruct (stepping cfg n i); [|done]. by destruct (gt (clipNorm cfg) zero).
Qed.

Lemma optimiser_steps_batches cfg epoch n (l : list nat) :
  optimiser_steps (flat_map (λ i, Backward epoch i :: gradient_step cfg epoch n i) l)
  = map (λ i, (epoch, i)) (filter (λ i, stepping cfg n i) l).
Proof.
  induction l as [|i l IH]; [done|].
  cbn [flat_map]. rewrite optimiser_steps_app, IH, optimiser_steps_batch, filter_cons.
  destruct (stepping cfg n i); simpl; done.
Qed.

Lemma gradient_accumulation_steps cfg w epoch :
  optimiser_steps (train_batches cfg w epoch).1
  = map (λ i, (epoch, i))
        (filter (λ i, stepping cfg (length (trainDataloader w)) i)
                (range (length (trainDataloader w)))).
Proof. rewrite train_batches_events. apply optimiser_steps_batches. Qed.

Lemma filter_all {A} (P : A → Prop) `{∀ x, Decision (P x)} (l : list A) :
  (∀ x, P x) → filter P l = l.
Proof.
  intros HP. induction l as [|x l IH]; [done|].
  rewrite filter_cons, decide_True by done. by rewrite IH.
Qed.

Lemma gradient_policy_epoch (cfg : Configuration) (w : Collaborators) (epoch : Z) :
  let n := length (trainDataloader w) in
  let evs := (train_batches cfg w epoch).1 in
  evs = flat_map (λ i, Backward epoch i
                       :: (if stepping cfg n i
                           then (if gt (clipNorm cfg) zero
                                 then [ClipGradNorm epoch i] else [])
                                ++ [OptimiserStep epoch i; ZeroGrad epoch i]
                           else []))
                 (range n)
  ∧ optimiser_steps evs = map (λ i, (epoch, i)) (filter (λ i, stepping cfg n i) (range n))
  ∧ (batchSize cfg = 1 → n = 7%nat → optimiser_steps evs = [(epoch, 4%nat); (epoch, 6%nat)])
  ∧ (batchSize cfg ≠ 1 → optimiser_steps evs = map (λ i, (epoch, i)) (range n)).
Proof.
  intros n evs.
  assert (Hsteps : optimiser_steps evs
                   = map (λ i, (epoch, i)) (filter (λ i, stepping cfg n i) (range n))).
  { unfold evs. rewrite train_batches_events. apply optimiser_steps_batches. }
  split; [|split; [exact Hsteps|split]].
  - clear Hsteps. unfold evs. rewrite train_batches_events. fold n.
    apply flat_map_ext. intros i. by rewrite gradient_step_stepping.
  - intros Hb Hn. rewrite Hsteps, Hn. unfold stepping.
    rewrite bool_decide_false by (intros ?; congruence). reflexivity.
  - intros Hb. rewrite Hsteps. f_equal. apply filter_all.
    intros i. unfold stepping. by rewrite bool_decide_true by done.
Qed.

(** ** The order of floats and the running best *)


Lemma Qc_ltb_lt (x y : Qc) : Qc_ltb x y = true ↔ (x < y)%Qc.
Proof.
  unfold Qc_ltb. rewrite Qclt_alt. destruct (x ?= y)%Qc; split; congruence.
Qed.

Lemma Qc_ltb_ge (x y : Qc) : Qc_ltb x y = false ↔ (y ≤ x)%Qc.
Proof.
  rewrite Qcle_ngt, <- Qc_ltb_lt. destruct (Qc_ltb x y); split; congruence.
Qed.

Lemma lt_irrefl (a : pyfloat) : lt a a = false.
Proof.
  destruct a as [x| | |]; try done. simpl. apply Qc_ltb_ge. apply Qcle_refl.
Qed.

Lemma lt_trans (a b c : pyfloat) : lt a b = true → lt b c = true → lt a c = true.
Proof.
  destruct a as [x| | |], b as [y| | |], c as [z| | |]; simpl; try done.
  rewrite !Qc_ltb_lt. apply Qclt_trans.
Qed.

(** A value not below [b] is not below anything that is below [b]. *)
Lemma lt_chain (x y b : pyfloat) : lt x b = false → lt y b = true → lt x y = false.
Proof.
  destruct x as [x| | |], y as [y| | |], b as [b| | |]; simpl; try done.
  rewrite !Qc_ltb_ge, Qc_ltb_lt. intros Hbx Hyb.
  apply Qclt_le_weak. by apply (Qclt_le_trans _ b).
Qed.

(** *** The running best of a list of validation results *)

Lemma track_below (b : pyfloat * Z) (ev : Z * pyfloat) :
  track b ev = b ∨ lt (track b ev).1 b.1 = true.
Proof. unfold track. destruct (lt ev.2 b.1) eqn:Hlt; [by right|by left]. Qed.

Lemma foldl_track_below (vs : list (Z * pyfloat)) : ∀ b,
  foldl track b vs = b ∨ lt (foldl track b vs).1 b.1 = true.
Proof.
  induction vs as [|ev vs IH]; intros b; [by left|].
  cbn [foldl]. destruct (IH (track b ev)) as [->|H1]; [apply track_below|].
  destruct (track_below b ev) as [Heq|H2].
  - rewrite Heq in *. by right.
  - right. by apply (lt_trans _ (track b ev).1).
Qed.

Lemma foldl_track_lower_bound (vs : list (Z * pyfloat)) : ∀ b ev,
  ev ∈ vs → lt ev.2 (foldl track b vs).1 = false.
Proof.
  induction vs as [|ev0 vs IH]; intros b ev Hin; [by apply elem_of_nil in Hin|].
  cbn [foldl]. apply elem_of_cons in Hin as [->|Hin]; [|by apply IH].
  assert (H0 : lt ev0.2 (track b ev0).1 = false).
  { unfold track. destruct (lt ev0.2 b.1) eqn:Hlt; [apply lt_irrefl|done]. }
  destruct (foldl_track_below vs (track b ev0)) as [->|H1]; [done|].
  by apply (lt_chain _ _ (track b ev0).1).
Qed.

Lemma foldl_track_member (vs : list (Z * pyfloat)) : ∀ b,
  foldl track b vs = b
  ∨ ((foldl track b vs).2, (foldl track b vs).1) ∈ vs.
Proof.
  induction vs as [|ev vs IH]; intros b; [by left|].
  cbn [foldl]. destruct (IH (track b ev)) as [->|Hin].
  - unfold track. destruct (lt ev.2 b.1); [right|by left].
    destruct ev; cbn. apply list_elem_of_here.
  - right. by apply list_elem_of_further.
Qed.

Lemma foldl_track_improvements (vs : list (Z * pyfloat)) : ∀ b,
  (foldl track b vs).2 = default b.2 (last (improvements b.1 vs))
  ∧ (improvements b.1 vs = [] → foldl track b vs = b).
Proof.
  induction vs as [|ev vs IH]; intros b; [done|].
  cbn [foldl improvements]. unfold track at 2 4. destruct (lt ev.2 b.1).
  - destruct (IH (ev.2, ev.1)) as [IH1 IH2]. cbn [fst snd] in *.
    split; [|done]. rewrite IH1, last_cons. by destruct (last _).
  - apply IH.
Qed.

Lemma improvements_below (vs : list (Z * pyfloat)) : ∀ b,
  improvements b.1 vs ≠ [] → lt (foldl track b vs).1 b.1 = true.
Proof.
  induction vs as [|ev vs IH]; intros b Hne; [done|].
  cbn [foldl improvements] in *. unfold track at 2. destruct (lt ev.2 b.1) eqn:Hlt.
  - destruct (foldl_track_below vs (ev.2, ev.1)) as [->|Hb]; [done|].
    by apply (lt_trans _ ev.2).
  - by apply IH.
Qed.

Lemma elem_of_stops (tr : list event) (e : Z) : StopTraining e ∈ tr ↔ e ∈ stops tr.
Proof.
  unfold stops. rewrite list_elem_of_omap. split.
  - intros Hin. by exists (StopTraining e).
  - intros (ev & Hin & Hev). destruct ev; try done. by injection Hev as ->.
Qed.


Lemma foldl_track_no_improvement (vs : list (Z * pyfloat)) (b : pyfloat * Z) :
  Forall (λ ev, lt ev.2 b.1 = false) vs →
  foldl track b vs = b ∧ improvements b.1 vs = [].
Proof.
  induction 1 as [|ev vs Hev _ IH]; [done|].
  cbn [foldl improvements]. unfold track at 2. by rewrite Hev.
Qed.

Lemma validated_no_improvement cfg (v : Z → pyfloat) (es : list Z) (b : pyfloat) :
  Forall (λ e, lt (v e) b = false) es →
  Forall (λ ev : Z * pyfloat, lt ev.2 b = false) (validated cfg v es).
Proof.
  intros Hes. unfold validated. apply Forall_fmap. apply Forall_forall.
  intros e [_ He]%list_elem_of_filter. cbn. by eapply Forall_forall in Hes.
Qed.


(** ** The epoch loop *)

Ltac observe :=
  unfold optimiser_steps, logged_epochs, logged_means, saved_epochs, validations,
    saved_best, stops in *;
  rewrite ?omap_app in *.

Lemma omap_flat_map_nil {A B C} (f : B → option C) (g : A → list B) (l : list A) :
  (∀ x, omap f (g x) = []) → omap f (flat_map g l) = [].
Proof.
  intros Hg. induction l as [|x l IH]; [done|].
  cbn [flat_map]. by rewrite omap_app, Hg, IH.
Qed.

Lemma batch_events_silent cfg w epoch :
  let evs := (train_batches cfg w epoch).1 in
  logged_epochs evs = [] ∧ logged_means evs = [] ∧ saved_epochs evs = []
  ∧ validations evs = [] ∧ saved_best evs = [] ∧ stops evs = [].
Proof.
  cbn zeta. rewrite train_batches_events.
  repeat split; apply omap_flat_map_nil; intros i;
    rewrite gradient_step_stepping; unfold step_and_zero;
    destruct (stepping _ _ _); destruct (gt (clipNorm cfg) zero); reflexivity.
Qed.

Lemma train_batches_losses_loop cfg w epoch n (l : list Batch) :
  ∀ a (acc : list event * list pyfloat),
    (foldl (fun acc item =>
              let loss := train_loss_item w epoch item.1 item.2 in
              (acc.1 ++ Backward epoch item.1 :: gradient_step cfg epoch n item.1,
               acc.2 ++ [loss]))
           acc (zip (seq a (length l)) l)).2
    = acc.2 ++ map (fun item => train_loss_item w epoch item.1 item.2)
                   (zip (seq a (length l)) l).
Proof.
  induction l as [|b l IH]; intros a acc.
  - simpl. by rewrite (right_id_L [] (++)).
  - cbn [length seq zip zip_with foldl map]. rewrite IH. cbn [fst snd].
    by rewrite <- (assoc_L (++)).
Qed.

Lemma train_batches_losses cfg w epoch :
  (train_batches cfg w epoch).2 = train_losses w epoch.
Proof.
  unfold train_batches, train_losses, enumerate, range.
  by rewrite train_batches_losses_loop.
Qed.

Lemma stop_condition_bool cfg e bestEpoch :
  bool_decide (0 < earlyStoppingEpochCount cfg) && bool_decide (warmup cfg < e)
  && bool_decide (earlyStoppingEpochCount cfg ≤ e - bestEpoch) = true
  ↔ stop_condition cfg e bestEpoch.
Proof.
  unfold stop_condition. rewrite !andb_true_iff, !bool_decide_eq_true. tauto.
Qed.

Lemma validated_app cfg v es1 es2 :
  validated cfg v (es1 ++ es2) = validated cfg v es1 ++ validated cfg v es2.
Proof. unfold validated. by rewrite filter_app, fmap_app. Qed.

Lemma validated_cons cfg v e es :
  validated cfg v (e :: es) = validated cfg v [e] ++ validated cfg v es.
Proof. apply (validated_app cfg v [e] es). Qed.

Lemma improvements_app vs1 : ∀ vs2 b e0,
  improvements b (vs1 ++ vs2)
  = improvements b vs1 ++ improvements (foldl track (b, e0) vs1).1 vs2.
Proof.
  induction vs1 as [|ev vs1 IH]; intros vs2 b e0; [done|].
  cbn [app improvements foldl]. unfold track at 2. cbn [fst snd].
  destruct (lt ev.2 b).
  - by rewrite (IH vs2 ev.2 ev.1).
  - by rewrite (IH vs2 b e0).
Qed.

Lemma stop_from_S cfg v b a i :
  stop_from cfg v b a (S i)
  ↔ stop_from cfg v (foldl track b (validated cfg v [Z.of_nat a])) (S a) i.
Proof.
  unfold stop_from. cbn [seq map]. rewrite (validated_cons cfg v (Z.of_nat a)), foldl_app.
  by replace (a + S i)%nat with (S a + i)%nat by lia.
Qed.

Lemma filter_cons_app {A} (P : A → Prop) `{∀ x, Decision (P x)} (x : A) (l : list A) :
  filter P (x :: l) = filter P [x] ++ filter P l.
Proof. apply (filter_app P [x] l). Qed.

Section Loop.
Context `{Network}.
Variable w : Collaborators.
Variable v : Z → pyfloat.
Variable cfg : Configuration.
Hypothesis validate_ok : ∀ e, validates cfg e = true → validate w e = Ok (v e).

Lemma train_epoch_spec (r : Runner) (tr : list event) (e : Z) :
  config r = cfg →
  let vs := validated cfg v [e] in
  ∃ r1 tr1 stop,
    train_epoch w (r, tr) e = Ok ((r1, tr1), stop)
    ∧ config r1 = cfg
    ∧ best r1 = foldl track (best r) vs
    ∧ logged_epochs tr1 = logged_epochs tr ++ [e]
    ∧ logged_means tr1 = logged_means tr ++ [(e, np_mean (train_losses w e))]
    ∧ saved_epochs tr1 = saved_epochs tr ++ filter (λ e, checkpointed cfg e) [e]
    ∧ validations tr1 = validations tr ++ vs
    ∧ saved_best tr1 = saved_best tr ++ improvements (bestValLoss r) vs
    ∧ optimiser_steps tr1
      = optimiser_steps tr ++ steps_of_epochs cfg (length (trainDataloader w)) [e]
    ∧ (stop = true ↔ stop_condition cfg e (bestValLossEpoch r1))
    ∧ stops tr1 = stops tr ++ (if stop then [e] else []).
Proof.
  intros Hcfg vs. unfold train_epoch. cbn [fst snd]. rewrite Hcfg.
  pose proof (batch_events_silent cfg w e) as (Hl & Hm & Hse & Hv & Hs & Hst).
  pose proof (gradient_accumulation_steps cfg w e) as Ho.
  pose proof (train_batches_losses cfg w e) as Hlosses.
  destruct (train_batches cfg w e) as [evs losses]. cbn [fst snd] in *.
  rewrite Hlosses. clear Hlosses losses.
  assert (Hvs : vs = if validates cfg e then [(e, v e)] else []).
  { unfold vs, validated. rewrite filter_cons, filter_nil.
    destruct (validates cfg e); done. }
  rewrite Hvs. clear Hvs vs.
  assert (Hsave : filter (λ e, checkpointed cfg e) [e]
                  = if checkpointed cfg e then [e] else []).
  { rewrite filter_cons, filter_nil. destruct (checkpointed cfg e); done. }
  rewrite Hsave. clear Hsave.
  fold (checkpointed cfg e). fold (validates cfg e).
  destruct (validates cfg e) eqn:Hcad; cbn [mbind result_bind].
  - rewrite (validate_ok e Hcad). cbn [mbind result_bind fst snd].
    destruct (checkpointed cfg e);
      cbn [fst snd foldl improvements]; unfold track, best; cbn [fst snd];
      destruct (lt (v e) (bestValLoss r)) eqn:Hlt; cbn [mbind result_bind fst snd];
      match goal with |- context [bool_decide (0 < ?p) && ?b && ?c] =>
        pose proof (stop_condition_bool cfg e) as Hsc;
        destruct (bool_decide (0 < p) && b && c) eqn:Hstop end;
      (eexists _, _, _; split; [reflexivity|]);
      cbn [config bestValLossEpoch bestValLoss with_best fst snd] in *;
      observe; rewrite ?Hl, ?Hm, ?Hse, ?Hv, ?Hs, ?Hst, ?Ho; cbn;
      rewrite ?(right_id_L [] (++));
      split_and!; try done; try (by rewrite <- Hsc, Hstop).
  - destruct (checkpointed cfg e);
      cbn [fst snd foldl improvements]; unfold track, best; cbn [fst snd];
      match goal with |- context [bool_decide (0 < ?p) && ?b && ?c] =>
        pose proof (stop_condition_bool cfg e) as Hsc;
        destruct (bool_decide (0 < p) && b && c) eqn:Hstop end;
      (eexists _, _, _; split; [reflexivity|]);
      observe; rewrite ?Hl, ?Hm, ?Hse, ?Hv, ?Hs, ?Hst, ?Ho; cbn;
      rewrite ?(right_id_L [] (++));
      split_and!; try done; try (by rewrite <- Hsc, Hstop).
Qed.

Lemma train_epochs_spec (k : nat) : ∀ (a : nat) (r : Runner) (tr : list event),
  config r = cfg →
  ∃ r' tr' j,
    train_epochs w (r, tr) (map Z.of_nat (seq a k)) = Ok (r', tr')
    ∧ (j ≤ k)%nat
    ∧ config r' = cfg
    ∧ best r' = foldl track (best r) (validated cfg v (map Z.of_nat (seq a j)))
    ∧ logged_epochs tr' = logged_epochs tr ++ map Z.of_nat (seq a j)
    ∧ logged_means tr'
      = logged_means tr
        ++ map (λ e, (e, np_mean (train_losses w e))) (map Z.of_nat (seq a j))
    ∧ saved_epochs tr'
      = saved_epochs tr ++ filter (λ e, checkpointed cfg e) (map Z.of_nat (seq a j))
    ∧ validations tr' = validations tr ++ validated cfg v (map Z.of_nat (seq a j))
    ∧ saved_best tr'
      = saved_best tr
        ++ improvements (bestValLoss r) (validated cfg v (map Z.of_nat (seq a j)))
    ∧ optimiser_steps tr'
      = optimiser_steps tr
        ++ steps_of_epochs cfg (length (trainDataloader w)) (map Z.of_nat (seq a j))
    ∧ (∀ i, (S i < j)%nat → ¬ stop_from cfg v (best r) a i)
    ∧ ((j = k ∧ stops tr' = stops tr
        ∧ ∀ i, (i < k)%nat → ¬ stop_from cfg v (best r) a i)
       ∨ (∃ i, j = S i ∧ stop_from cfg v (best r) a i
               ∧ stops tr' = stops tr ++ [Z.of_nat (a + i)])).
Proof.
  induction k as [|k IH]; intros a r tr Hcfg0.
  - exists r, tr, 0%nat. cbn [seq map train_epochs]. unfold validated, steps_of_epochs.
    cbn. rewrite !(right_id_L [] (++)).
    split_and!; try done; try lia.
    left. split_and!; try done. intros i Hi. lia.
  - cbn [seq map train_epochs].
    destruct (train_epoch_spec r tr (Z.of_nat a) Hcfg0)
      as (r1 & tr1 & stop & -> & Hcfg & Hbest & Hlog & Hmean & Hsep & Hval & Hsav
          & Hopt & Hstop & Hstops).
    cbn [mbind result_bind].
    assert (Hsc0 : stop = true ↔ stop_from cfg v (best r) a 0).
    { rewrite Hstop. unfold stop_from. cbn [seq map]. rewrite <- Hbest.
      by replace (a + 0)%nat with a by lia. }
    destruct stop.
    + exists r1, tr1, 1%nat. cbn [seq map].
      split_and!; try done; try lia.
      right. exists 0%nat. split_and!; [done|by apply Hsc0|].
      by replace (a + 0)%nat with a by lia.
    + destruct (IH (S a) r1 tr1 Hcfg)
        as (r' & tr' & j & -> & Hj & Hcfg' & Hbest' & Hlog' & Hmean' & Hsep' & Hval'
            & Hsav' & Hopt' & Hpre & Hend).
      exists r', tr', (S j). cbn [seq map].
      rewrite (validated_cons cfg v (Z.of_nat a)), foldl_app.
      split_and!.
      * done.
      * lia.
      * done.
      * by rewrite Hbest', Hbest.
      * rewrite Hlog', Hlog. by rewrite <- (assoc_L (++)).
      * rewrite Hmean', Hmean. by rewrite <- (assoc_L (++)).
      * rewrite Hsep', Hsep, <- (assoc_L (++)). f_equal.
        symmetry. apply filter_cons_app.
      * rewrite Hval', Hval. by rewrite <- (assoc_L (++)).
      * rewrite Hsav', Hsav.
        rewrite (improvements_app _ _ (bestValLoss r) (bestValLossEpoch r)).
        fold (best r). rewrite <- Hbest. unfold best. cbn [fst].
        by rewrite <- (assoc_L (++)).
      * rewrite Hopt', Hopt. unfold steps_of_epochs. cbn [flat_map].
        by rewrite (right_id_L [] (++)), <- (assoc_L (++)).
      * intros [|i] Hi.
        -- rewrite <- Hsc0. done.
        -- rewrite stop_from_S, <- Hbest. apply Hpre. lia.
      * destruct Hend as [(-> & Hst & Hno)|(i & -> & Hsi & Hst)].
        -- left. split_and!; [done|by rewrite Hst, Hstops, (right_id_L [] (++))|].
           intros [|i] Hi.
           ++ rewrite <- Hsc0. done.
           ++ rewrite stop_from_S, <- Hbest. apply Hno. lia.
        -- right. exists (S i). split_and!; [done| |].
           ++ by rewrite stop_from_S, <- Hbest.
           ++ rewrite Hst, Hstops, (right_id_L [] (++)).
              by replace (a + S i)%nat with (S a + i)%nat by lia.
Qed.
End Loop.

(** ** Validation *)

Section Collect.
Context {S A : Type}.

(** A loop that appends one item per iteration. *)
Lemma for_each_collect (body : list S → A → result (list S)) (h : A → S)
    (l : list A) :
  ∀ acc, (∀ acc i, i ∈ l → body acc i = Ok (acc ++ [h i])) →
         for_each body acc l = Ok (acc ++ map h l).
Proof.
  induction l as [|i l IH]; intros acc Hbody.
  - simpl. by rewrite (right_id_L [] (++)).
  - rewrite for_each_cons, Hbody by apply list_elem_of_here.
    cbn [mbind result_bind]. rewrite IH.
    + by rewrite <- (assoc_L (++)).
    + intros acc' i' Hi'. apply Hbody. by apply list_elem_of_further.
Qed.

Lemma for_each_collect2 (f : A → result S) (l : list A) (out : list S) :
  Forall2 (λ i o, f i = Ok o) l out →
  ∀ acc, for_each (λ acc i, o ← f i; Ok (acc ++ [o])) acc l = Ok (acc ++ out).
Proof.
  induction 1 as [|i o l out Hi Hl IH]; intros acc.
  - simpl. by rewrite (right_id_L [] (++)).
  - rewrite for_each_cons, Hi. cbn [mbind result_bind]. rewrite IH.
    by rewrite <- (assoc_L (++)).
Qed.

(** The first failing iteration ends the loop with its exception. *)
Lemma for_each_raise (f : A → result S) (e : exn) (pre post : list A) (i : A)
    (out : list S) :
  Forall2 (λ i o, f i = Ok o) pre out →
  f i = Raise e →
  ∀ acc, for_each (λ acc i, o ← f i; Ok (acc ++ [o])) acc (pre ++ i :: post)
         = Raise e.
Proof.
  induction 1 as [|i0 o l out Hi Hl IH]; intros Hraise acc.
  - cbn [app]. by rewrite for_each_cons, Hraise.
  - cbn [app]. rewrite for_each_cons, Hi. cbn [mbind result_bind]. by apply IH.
Qed.
End Collect.

Lemma slice_to_length (x : list Z) (k : Z) :
  length (slice_to x k) = slice_stop (length x) k.
Proof.
  unfold slice_to. rewrite length_take. unfold slice_stop.
  case_bool_decide; lia.
Qed.

Lemma row_length (t : Tensor2) (i : nat) : length (row t i) = size1 t.
Proof. unfold row, range. by rewrite length_map, length_seq. Qed.

Lemma flatten_targets_ok (t : Tensor2) (lengths : list Z) :
  (1 ≤ size0 t)%nat → (size0 t ≤ length lengths)%nat →
  flatten_targets t lengths = Ok (concat (target_parts t lengths)).
Proof.
  intros HN HM. unfold flatten_targets.
  rewrite (for_each_collect _ (λ i, slice_to (row t i) (default 0 (lengths !! i)))).
  - cbn [mbind result_bind app]. fold (target_parts t lengths).
    unfold target_parts, range. destruct (size0 t); [lia|]. done.
  - intros acc i Hi. unfold range in Hi. apply elem_of_seq in Hi.
    unfold getitem. destruct (lookup_lt_is_Some_2 lengths i) as [k ->]; [lia|]. done.
Qed.

Lemma flatten_targets_no_examples (t : Tensor2) (lengths : list Z) :
  size0 t = 0%nat → flatten_targets t lengths = Raise RuntimeError.
Proof. intros HN. unfold flatten_targets. by rewrite HN. Qed.

Lemma concat_length_sum (parts : list (list Z)) :
  Z.of_nat (length (concat parts)) = tensor_sum (map (λ p, Z.of_nat (length p)) parts).
Proof.
  induction parts as [|p parts IH]; [done|].
  cbn [concat map tensor_sum foldr]. rewrite length_app. unfold tensor_sum in IH. lia.
Qed.

Lemma clamped_parts_lengths (t : Tensor2) (lengths : list Z) :
  length lengths = size0 t → Forall (λ k, 0 ≤ k) lengths →
  map (λ p, Z.of_nat (length p)) (target_parts t (clamp_max lengths (Z.of_nat (size1 t))))
  = clamp_max lengths (Z.of_nat (size1 t)).
Proof.
  intros Hlen Hpos. unfold target_parts. rewrite <- list_fmap_compose.
  apply list_eq. intros i. rewrite list_lookup_fmap. unfold range.
  destruct (decide (i < size0 t)%nat) as [Hi|Hi].
  - rewrite lookup_seq_lt by done. cbn [fmap option_fmap option_map compose].
    rewrite slice_to_length, row_length. cbn [plus].
    unfold clamp_max. rewrite list_lookup_fmap.
    destruct (lookup_lt_is_Some_2 lengths i) as [k Hk]; [lia|]. rewrite Hk. cbn.
    f_equal. unfold slice_stop.
    assert (0 ≤ k) by (eapply Forall_lookup_1 in Hpos; [exact Hpos|exact Hk]).
    rewrite bool_decide_false by lia. lia.
  - rewrite lookup_seq_ge by lia. cbn. symmetry. apply lookup_ge_None.
    unfold clamp_max. rewrite length_map. lia.
Qed.

Lemma well_formed_consistent (data : Batch) :
  well_formed data →
  ∃ enc, flatten_targets (transcription data) (safe_target_lengths data) = Ok enc
         ∧ Z.of_nat (length enc) = tensor_sum (safe_target_lengths data).
Proof.
  intros (HN & Hlen & Hpos). eexists. split.
  - apply flatten_targets_ok; [done|].
    unfold safe_target_lengths, clamp_max. rewrite length_map. lia.
  - rewrite concat_length_sum. unfold safe_target_lengths.
    by rewrite clamped_parts_lengths.
Qed.

Lemma validate_batch_check (w : Collaborators) (epoch : Z) (data : Batch) (enc : list Z) :
  flatten_targets (transcription data) (safe_target_lengths data) = Ok enc →
  validate_batch w epoch data
  = if bool_decide (Z.of_nat (length enc) = tensor_sum (safe_target_lengths data))
    then Ok (val_loss_item w epoch data enc (safe_target_lengths data))
    else Raise AssertionError.
Proof. intros Hflat. unfold validate_batch. by rewrite Hflat. Qed.

Lemma validate_ok_losses (w : Collaborators) (epoch : Z) (losses : list pyfloat) :
  Forall2 (λ b l, validate_batch w epoch b = Ok l) (evalDataloader w) losses →
  validate w epoch = Ok (np_mean losses).
Proof.
  intros Hall. unfold validate.
  by rewrite (for_each_collect2 (validate_batch w epoch) _ losses Hall).
Qed.

Lemma validate_raises (w : Collaborators) (epoch : Z) (e : exn)
    (pre post : list Batch) (data : Batch) :
  evalDataloader w = pre ++ data :: post →
  Forall (λ b, ∃ l, validate_batch w epoch b = Ok l) pre →
  validate_batch w epoch data = Raise e →
  validate w epoch = Raise e.
Proof.
  intros Hloader Hpre Hraise. unfold validate. rewrite Hloader.
  assert (∃ out, Forall2 (λ b l, validate_batch w epoch b = Ok l) pre out) as [out Hout].
  { clear Hloader. induction Hpre as [|b pre [l Hl] _ [out IH]].
    - by exists [].
    - exists (l :: out). by constructor. }
  by rewrite (for_each_raise (validate_batch w epoch) e pre post data out Hout Hraise).
Qed.

Section Abort.
Context `{Network}.

Lemma train_epoch_raises (w : Collaborators) (st : TrainState) (epoch : Z) (e : exn) :
  validates (config st.1) epoch = true →
  validate w epoch = Raise e →
  train_epoch w st epoch = Raise e.
Proof.
  intros Hcad Hraise. unfold train_epoch.
  destruct (train_batches (config st.1) w epoch) as [evs losses].
  unfold validates in Hcad. rewrite Hcad, Hraise. done.
Qed.

Lemma train_epochs_raises (w : Collaborators) (st : TrainState) (epoch : Z)
    (rest : list Z) (e : exn) :
  validates (config st.1) epoch = true →
  validate w epoch = Raise e →
  train_epochs w st (epoch :: rest) = Raise e.
Proof.
  intros Hcad Hraise. cbn [train_epochs].
  by rewrite (train_epoch_raises w st epoch e Hcad Hraise).
Qed.

End Abort.

(** *** The mean of finite losses *)

Lemma sum_finite_acc (qs : list Qc) : ∀ a : Qc,
  fold_left add (map Fin qs) (Fin a) = Fin (a + foldr Qcplus 0%Qc qs)%Qc.
Proof.
  induction qs as [|q qs IH]; intros a; cbn [map fold_left foldr].
  - f_equal. ring.
  - cbn [add]. rewrite IH. f_equal. ring.
Qed.

Lemma np_mean_finite (qs : list Qc) :
  qs ≠ [] →
  np_mean (map Fin qs)
  = Fin (foldr Qcplus 0%Qc qs / Qc_of_Z (Z.of_nat (length qs)))%Qc.
Proof.
  intros Hne. unfold np_mean, sum, zero. rewrite sum_finite_acc, length_map.
  destruct qs as [|q qs]; [done|]. cbn [length div_count]. f_equal. f_equal. ring.
Qed.

Lemma np_mean_empty : np_mean [] = NaN.
Proof. reflexivity. Qed.

Lemma lt_nan_l (b : pyfloat) : lt NaN b = false.
Proof. done. Qed.



(** ** The report pass *)

Lemma omap_cons_eq {A B} (f : A → option B) (x : A) (l : list A) :
  omap f (x :: l) = match f x with Some y => y :: omap f l | None => omap f l end.
Proof. reflexivity. Qed.

Section Report.
Context `{Network} `{TranscriptionEncoder}.

Lemma record_at_Some results plain names idx g p nm :
  results !! idx = Some g → plain !! idx = Some p → names !! idx = Some nm →
  record_at results plain names idx = Some (record_of g p nm).
Proof. intros Hg Hp Hn. unfold record_at. by rewrite Hg, Hp, Hn. Qed.

Lemma test_example_ok results plain names acc idx g p nm :
  results !! idx = Some g → plain !! idx = Some p → names !! idx = Some nm →
  ∃ acc', test_example results plain names acc idx = Ok acc'
          ∧ transliterations acc' = transliterations acc ++ [record_of g p nm].
Proof.
  intros Hg Hp Hn. unfold test_example, getitem. rewrite Hg, Hp, Hn.
  cbn [mbind result_bind]. eexists. split; [reflexivity|done].
Qed.

Lemma test_example_short results plain names acc idx :
  (idx < length results)%nat → (idx < length plain)%nat → (length names ≤ idx)%nat →
  test_example results plain names acc idx = Raise IndexError.
Proof.
  intros Hg Hp Hn. unfold test_example, getitem.
  destruct (lookup_lt_is_Some_2 results idx Hg) as [g ->].
  destruct (lookup_lt_is_Some_2 plain idx Hp) as [p ->].
  rewrite (lookup_ge_None_2 names idx Hn). done.
Qed.

Lemma test_examples_loop results plain names (k : nat) : ∀ (a : nat) acc,
  (a + k ≤ Nat.min (length results) (length plain))%nat →
  ((a + k ≤ length names)%nat →
   ∃ acc', for_each (test_example results plain names) acc (seq a k) = Ok acc'
           ∧ transliterations acc'
             = transliterations acc ++ omap (record_at results plain names) (seq a k))
  ∧ ((a ≤ length names < a + k)%nat →
     for_each (test_example results plain names) acc (seq a k) = Raise IndexError).
Proof.
  induction k as [|k IH]; intros a acc Hk.
  - split; [|lia]. intros _. exists acc. split; [done|]. cbn. by rewrite (right_id_L [] (++)).
  - cbn [seq]. rewrite for_each_cons.
    destruct (decide (a < length names)%nat) as [Ha|Ha].
    + destruct (lookup_lt_is_Some_2 results a) as [g Hg]; [lia|].
      destruct (lookup_lt_is_Some_2 plain a) as [p Hp]; [lia|].
      destruct (lookup_lt_is_Some_2 names a) as [nm Hn]; [lia|].
      destruct (test_example_ok results plain names acc a g p nm Hg Hp Hn)
        as (acc1 & -> & Hacc1).
      cbn [mbind result_bind]. destruct (IH (S a) acc1) as [IHok IHraise]; [lia|].
      split.
      * intros Hlen. destruct IHok as (acc' & -> & Hacc'); [lia|].
        exists acc'. split; [done|]. rewrite Hacc', Hacc1, omap_cons_eq.
        rewrite (record_at_Some _ _ _ _ _ _ _ Hg Hp Hn). by rewrite <- (assoc_L (++)).
      * intros Hlen. apply IHraise. lia.
    + split; [lia|]. intros Hlen.
      rewrite test_example_short by lia. done.
Qed.

Lemma test_batch_spec (r : Runner) (w : Collaborators) (acc : Accumulators)
    (data : Batch) (results : list string) :
  decode_fn r (max_index_of w data) = Ok results →
  let n := Nat.min (length results) (length (transcription_plaintxt data)) in
  ((n ≤ length (image_name data))%nat →
   ∃ acc', test_batch r w acc data = Ok acc'
           ∧ transliterations acc'
             = transliterations acc
               ++ batch_records results (transcription_plaintxt data) (image_name data))
  ∧ ((length (image_name data) < n)%nat → test_batch r w acc data = Raise IndexError).
Proof.
  intros Hdec n. unfold test_batch. rewrite Hdec. cbn [mbind result_bind].
  fold n. unfold range, batch_records.
  destruct (test_examples_loop results (transcription_plaintxt data) (image_name data)
              n 0 acc) as [Hok Hraise]; [fold n; lia|].
  split; intros Hn; [apply Hok|apply Hraise]; lia.
Qed.

Lemma batch_records_lookup results plain names (idx : nat) g p nm :
  results !! idx = Some g → plain !! idx = Some p → names !! idx = Some nm →
  (Nat.min (length results) (length plain) ≤ length names)%nat →
  batch_records results plain names !! idx = Some (record_of g p nm).
Proof.
  intros Hg Hp Hn Hlen. unfold batch_records, range.
  pose proof (lookup_lt_Some _ _ _ Hg). pose proof (lookup_lt_Some _ _ _ Hp).
  set (n := Nat.min _ _) in *.
  assert (Hall : ∀ k a, (a + k ≤ n)%nat →
    omap (record_at results plain names) (seq a k)
    = map (λ i, default [] (record_at results plain names i)) (seq a k)).
  { induction k as [|k IH]; intros a Ha; [done|].
    cbn [seq map]. rewrite omap_cons_eq.
    destruct (lookup_lt_is_Some_2 results a) as [g' Hg']; [lia|].
    destruct (lookup_lt_is_Some_2 plain a) as [p' Hp']; [lia|].
    destruct (lookup_lt_is_Some_2 names a) as [nm' Hn']; [lia|].
    rewrite (record_at_Some _ _ _ _ _ _ _ Hg' Hp' Hn'). cbn. f_equal. apply IH. lia. }
  rewrite (Hall n 0%nat) by lia. rewrite list_lookup_fmap, lookup_seq_lt by lia.
  cbn. by rewrite (record_at_Some _ _ _ _ _ _ _ Hg Hp Hn).
Qed.

Lemma batch_records_length results plain names :
  (Nat.min (length results) (length plain) ≤ length names)%nat →
  length (batch_records results plain names)
  = Nat.min (length results) (length plain).
Proof.
  intros Hlen. unfold batch_records, range. set (n := Nat.min _ _) in *.
  assert (Hall : ∀ k a, (a + k ≤ n)%nat →
    length (omap (record_at results plain names) (seq a k)) = k).
  { induction k as [|k IH]; intros a Ha; [done|].
    cbn [seq]. rewrite omap_cons_eq.
    destruct (lookup_lt_is_Some_2 results a) as [g' Hg']; [lia|].
    destruct (lookup_lt_is_Some_2 plain a) as [p' Hp']; [lia|].
    destruct (lookup_lt_is_Some_2 names a) as [nm' Hn']; [lia|].
    rewrite (record_at_Some _ _ _ _ _ _ _ Hg' Hp' Hn'). cbn. f_equal. apply IH. lia. }
  apply (Hall n 0%nat). lia.
Qed.

Lemma test_pass_loop (r : Runner) (w : Collaborators) batches decoded :
  Forall2 (reported r w) batches decoded →
  ∀ acc, ∃ acc', for_each (test_batch r w) acc batches = Ok acc'
                 ∧ transliterations acc'
                   = transliterations acc ++ pass_records batches decoded.
Proof.
  induction 1 as [|data results batches decoded [Hdec Hlen] _ IH]; intros acc.
  - exists acc. split; [done|]. unfold pass_records. cbn. by rewrite (right_id_L [] (++)).
  - rewrite for_each_cons.
    destruct (test_batch_spec r w acc data results Hdec) as [Hok _].
    destruct (Hok Hlen) as (acc1 & -> & Hacc1). cbn [mbind result_bind].
    destruct (IH acc1) as (acc' & -> & Hacc'). exists acc'. split; [done|].
    rewrite Hacc', Hacc1. unfold pass_records. cbn [zip_with concat].
    by rewrite <- (assoc_L (++)).
Qed.
End Report.

Lemma append_cons (x : Ascii.ascii) (a b : string) :
  String x a +:+ b = String x (a +:+ b).
Proof. reflexivity. Qed.

Lemma append_nil_l (b : string) : EmptyString +:+ b = b.
Proof. reflexivity. Qed.

Lemma escape_char_plain (c : Ascii.ascii) :
  (32 ≤ Ascii.nat_of_ascii c)%nat →
  Ascii.nat_of_ascii c ≠ 34%nat → Ascii.nat_of_ascii c ≠ 92%nat →
  escape_char c = String c EmptyString.
Proof.
  intros H32 H34 H92. unfold escape_char.
  repeat match goal with
         | |- context [(?n =? ?m)%nat] =>
             destruct (Nat.eqb_spec n m); [lia|]
         end.
  destruct (Nat.ltb_spec (Ascii.nat_of_ascii c) 32); [lia|done].
Qed.

Lemma escape_non_ascii (s : string) :
  Forall (λ c, 128 ≤ Ascii.nat_of_ascii c)%nat (String.list_ascii_of_string s) →
  escape s = s.
Proof.
  induction s as [|c s IH]; [done|]. cbn [String.list_ascii_of_string escape].
  intros Hall. inversion_clear Hall as [|?? Hc Hs].
  rewrite escape_char_plain by lia. rewrite append_cons, append_nil_l.
  f_equal. by apply IH.
Qed.

Lemma indentation :
  newline_indent 4 0 = newline
  ∧ newline_indent 4 1 = newline +:+ "    "
  ∧ newline_indent 4 2 = newline +:+ "        ".
Proof. split_and!; reflexivity. Qed.

Section Layout.
Context `{TranscriptionEncoder}.

Lemma encode_record (g p nm : string) :
  encode 4 1 (json_of_record (record_of g p nm)) = record_text g p nm.
Proof. reflexivity. Qed.

Lemma dump_records (recs : list Transliteration) :
  dump 4 (JArray (map json_of_record recs))
  = match recs with
    | [] => "[]"
    | _ => array_text (map (λ t, encode 4 1 (json_of_record t)) recs)
    end.
Proof.
  destruct recs as [|t recs]; [done|].
  unfold dump, array_text. cbn [map encode]. by rewrite <- list_fmap_compose.
Qed.
End Layout.

(** ** The run as a whole *)

Section Run.
Context `{Network} `{TranscriptionEncoder}.

Lemma Runner_init_fields cfg mode out w r :
  Runner_init cfg mode out w = Ok r →
  config r = cfg ∧ outFileName r = out ∧ init_model cfg mode w = Ok (model r)
  ∧ decode_fn r = init_decode cfg
  ∧ bestValLoss r = PInf ∧ bestValLossEpoch r = 0.
Proof.
  unfold Runner_init. destruct (init_model cfg mode w) as [m|e]; [|done].
  cbn [mbind result_bind]. by intros [= <-].
Qed.
End Run.

Lemma stop_from_stops_at (v : Z → pyfloat) cfg (i : nat) :
  stop_from cfg v (PInf, 0) 1 i ↔ stops_at cfg v (Z.of_nat (S i)).
Proof.
  unfold stop_from, stops_at, running_best, epoch_range.
  by rewrite Nat2Z.id.
Qed.

Section Train.
Context `{Network}.
Variable w : Collaborators.
Variable v : Z → pyfloat.
Variable cfg : Configuration.
Hypothesis validate_ok : ∀ e, validates cfg e = true → validate w e = Ok (v e).

(** What a whole run from a fresh runner leaves, in terms of the first
    epoch at which the stop condition holds. *)
Lemma train_run_spec (r : Runner) :
  config r = cfg → bestValLoss r = PInf → bestValLossEpoch r = 0 →
  ∃ r' tr,
    train r w = Ok (r', tr)
    ∧ config r' = cfg
    ∧ (bestValLoss r', bestValLossEpoch r') = running_best (validations tr)
    ∧ validations tr = validated cfg v (logged_epochs tr)
    ∧ saved_best tr = improvements PInf (validations tr)
    ∧ saved_epochs tr = filter (λ e, checkpointed cfg e) (logged_epochs tr)
    ∧ logged_means tr = map (λ e, (e, np_mean (train_losses w e))) (logged_epochs tr)
    ∧ optimiser_steps tr
      = steps_of_epochs cfg (length (trainDataloader w)) (logged_epochs tr)
    ∧ (∀ e, StopTraining e ∈ tr ↔ first_stop cfg v e)
    ∧ (∀ e, first_stop cfg v e → logged_epochs tr = epoch_range e)
    ∧ ((∀ e, ¬ first_stop cfg v e) → logged_epochs tr = epoch_range (epochs cfg))
    ∧ (∃ j, (j ≤ Z.to_nat (epochs cfg))%nat
            ∧ logged_epochs tr = map Z.of_nat (seq 1 j)).
Proof.
  intros Hcfg Hb He.
  destruct (train_epochs_spec w v cfg validate_ok (Z.to_nat (epochs cfg)) 1 r [] Hcfg)
    as (r' & tr & j & Htrain & Hj & Hcfg' & Hbest & Hlog & Hmean & Hsep & Hvs & Hsav
        & Hopt & Hpre & Hend).
  exists r', tr. unfold train. rewrite Hcfg. split; [exact Htrain|].
  unfold best in Hbest, Hpre, Hend. rewrite Hb, He in *.
  cbn [logged_epochs logged_means saved_epochs validations saved_best optimiser_steps
       stops omap list_omap app] in Hlog, Hmean, Hsep, Hvs, Hsav, Hopt, Hend.
  set (k := Z.to_nat (epochs cfg)) in *.
  assert (Hstop : ∀ e, StopTraining e ∈ tr ↔ first_stop cfg v e).
  { intros e. rewrite elem_of_stops. unfold first_stop.
    destruct Hend as [(-> & -> & Hno)|(i & -> & Hsi & ->)].
    - rewrite elem_of_nil. split; [done|]. intros ([He1 He2] & Hs & _).
      apply (Hno (Z.to_nat e - 1)%nat); [lia|].
      apply stop_from_stops_at. by replace (Z.of_nat (S (Z.to_nat e - 1))) with e by lia.
    - rewrite list_elem_of_singleton. split.
      + intros ->. split_and!; try lia.
        * by apply stop_from_stops_at.
        * intros e' He' Hs'. apply (Hpre (Z.to_nat e' - 1)%nat); [lia|].
          apply stop_from_stops_at.
          by replace (Z.of_nat (S (Z.to_nat e' - 1))) with e' by lia.
      + intros ([He1 He2] & Hs & Hmin).
        destruct (Z.lt_trichotomy e (Z.of_nat (1 + i))) as [Hlt|[Heq|Hgt]]; [|done|].
        * exfalso. apply (Hpre (Z.to_nat e - 1)%nat); [lia|].
          apply stop_from_stops_at.
          by replace (Z.of_nat (S (Z.to_nat e - 1))) with e by lia.
        * exfalso. apply (Hmin (Z.of_nat (1 + i))); [lia|].
          by apply stop_from_stops_at. }
  split_and!; try done.
  - by rewrite Hvs.
  - by rewrite Hvs, Hlog.
  - by rewrite Hsav, Hvs.
  - by rewrite Hsep, Hlog.
  - by rewrite Hmean, Hlog.
  - by rewrite Hopt, Hlog.
  - intros e Hfirst. rewrite Hlog. apply Hstop, elem_of_stops in Hfirst.
    destruct Hend as [(-> & Hst & Hno)|(i & -> & Hsi & Hst)]; rewrite Hst in Hfirst.
    + by apply elem_of_nil in Hfirst.
    + apply list_elem_of_singleton in Hfirst as ->. unfold epoch_range.
      by rewrite Nat2Z.id.
  - intros Hnone. rewrite Hlog.
    destruct Hend as [(-> & Hst & Hno)|(i & -> & Hsi & Hst)]; [done|].
    exfalso. apply (Hnone (Z.of_nat (1 + i))). apply Hstop, elem_of_stops.
    rewrite Hst. apply list_elem_of_singleton. done.
  - by exists j.
Qed.

Lemma train_epoch_no_improvement (r : Runner) (tr : list event) (e : Z) :
  config r = cfg →
  lt (v e) (bestValLoss r) = false →
  ∃ r1 tr1 stop,
    train_epoch w (r, tr) e = Ok ((r1, tr1), stop)
    ∧ config r1 = cfg
    ∧ best r1 = best r
    ∧ logged_epochs tr1 = logged_epochs tr ++ [e]
    ∧ (stop = true ↔ stop_condition cfg e (bestValLossEpoch r))
    ∧ stops tr1 = stops tr ++ (if stop then [e] else []).
Proof.
  intros Hcfg Hlt.
  destruct (train_epoch_spec w v cfg validate_ok r tr e Hcfg)
    as (r1 & tr1 & stop & Hrun & Hcfg1 & Hbest & Hlog & _ & _ & _ & _ & _ & Hstop & Hstops).
  destruct (foldl_track_no_improvement (validated cfg v [e]) (best r)) as [Hsame _].
  { apply validated_no_improvement. by constructor. }
  rewrite Hsame in Hbest.
  exists r1, tr1, stop. split_and!; try done.
  rewrite Hstop. by injection Hbest as _ ->.
Qed.

Lemma stop_after_two_epochs (r : Runner) (tr : list event) (rest : list Z) :
  config r = cfg →
  earlyStoppingEpochCount cfg = 2 →
  warmup cfg = 0 →
  bestValLossEpoch r = 4 →
  lt (v 5) (bestValLoss r) = false →
  lt (v 6) (bestValLoss r) = false →
  ∃ r' tr',
    train_epochs w (r, tr) (5 :: 6 :: rest) = Ok (r', tr')
    ∧ stops tr' = stops tr ++ [6]
    ∧ logged_epochs tr' = logged_epochs tr ++ [5; 6]
    ∧ best r' = best r.
Proof.
  intros Hcfg Hp Hw He H5 H6.
  destruct (train_epoch_no_improvement r tr 5 Hcfg H5)
    as (r1 & tr1 & stop1 & Hrun1 & Hcfg1 & Hbest1 & Hlog1 & Hstop1 & Hstops1).
  assert (stop1 = false) as ->.
  { destruct stop1; [|done]. destruct Hstop1 as [Hs _].
    destruct (Hs eq_refl) as (_ & _ & Hs3). lia. }
  assert (Hr1 : bestValLoss r1 = bestValLoss r ∧ bestValLossEpoch r1 = bestValLossEpoch r)
    by (by injection Hbest1).
  destruct Hr1 as [Hl1 He1].
  destruct (train_epoch_no_improvement r1 tr1 6 Hcfg1)
    as (r2 & tr2 & stop2 & Hrun2 & Hcfg2 & Hbest2 & Hlog2 & Hstop2 & Hstops2);
    [by rewrite Hl1|].
  assert (stop2 = true) as ->.
  { apply Hstop2. rewrite He1. unfold stop_condition. lia. }
  exists r2, tr2. cbn [train_epochs]. rewrite Hrun1. cbn [mbind result_bind].
  rewrite Hrun2. cbn [mbind result_bind].
  split_and!; try done.
  - by rewrite Hstops2, Hstops1, (right_id_L [] (++)).
  - by rewrite Hlog2, Hlog1, <- (assoc_L (++)).
  - by rewrite Hbest2.
Qed.
End Train.

(** ** The statements of the specification *)

Section Claims.
Context `{Network} `{TranscriptionEncoder}.





(** C6: whatever decoding method is configured, the decode function a
    runner is given at construction is the greedy decoder, so a
    configuration with another method decodes exactly as one with the
    greedy method. *)
Theorem decode_is_always_greedy :
  (∀ cfg : Configuration, init_decode cfg = greedyDecode)
  ∧ (∀ cfg mode out w (r : Runner),
       Runner_init cfg mode out w = Ok r →
       ∀ predicted, decode_fn r predicted = greedyDecode predicted)
  ∧ (∀ (cfg cfg' : Configuration) predicted,
       decodingMethod cfg' = GREEDY →
       init_decode cfg predicted = init_decode cfg' predicted).
Proof.
  assert (Hsel : ∀ cfg : Configuration, init_decode cfg = greedyDecode).
  { intros cfg. unfold init_decode. by case_bool_decide. }
  split_and!.
  - exact Hsel.
  - intros cfg mode out w r Hinit predicted.
    destruct (Runner_init_fields _ _ _ _ _ Hinit) as (_ & _ & _ & -> & _).
    by rewrite Hsel.
  - intros cfg cfg' predicted _. by rewrite !Hsel.
Qed.

(** C7: at construction in a mode other than [NONE], a checkpoint that is
    a dictionary without the key [model_state_dict] is applied to the
    model as it is, and of one with that key the value under it is
    applied; in mode [NONE] no checkpoint is read and the model is the
    fresh one. *)
Theorem checkpoint_formats (cfg : Configuration) (mode : EvalMode) (w : Collaborators) :
  let path := path_join (outDir cfg) (testModelFileName cfg) in
  let fresh := getModel cfg alphabetSize in
  (∀ d, mode ≠ NONE →
        checkpoints w !! path = Some (PDict d) →
        d !! "model_state_dict" = None →
        init_model cfg mode w
        = (m ← load_state_dict fresh (PDict d); Ok (to_device m (device cfg))))
  ∧ (∀ d inner, mode ≠ NONE →
                checkpoints w !! path = Some (PDict d) →
                d !! "model_state_dict" = Some inner →
                init_model cfg mode w
                = (m ← load_state_dict fresh inner; Ok (to_device m (device cfg))))
  ∧ (mode = NONE → init_model cfg mode w = Ok (to_device fresh (device cfg)))
  ∧ (∀ out (r : Runner),
       Runner_init cfg mode out w = Ok r → init_model cfg mode w = Ok (model r)).
Proof.
  intros path fresh. split_and!.
  - intros d Hmode Hfile Hkey. unfold init_model, torch_load. fold path fresh.
    rewrite bool_decide_true by done. rewrite Hfile. cbn [mbind result_bind keys].
    rewrite bool_decide_false; [done|]. by apply not_elem_of_dom.
  - intros d inner Hmode Hfile Hkey. unfold init_model, torch_load. fold path fresh.
    rewrite bool_decide_true by done. rewrite Hfile. cbn [mbind result_bind keys].
    rewrite bool_decide_true by (by rewrite elem_of_dom, Hkey).
    cbn [subscript]. by rewrite Hkey.
  - intros ->. unfold init_model. by rewrite bool_decide_false by (by intros []).
  - intros out r Hinit. by destruct (Runner_init_fields _ _ _ _ _ Hinit) as (_ & _ & -> & _).
Qed.

(** C8: when every batch decodes and has an image name for each of its
    reported examples, the report pass writes to the configured file the
    JSON array of the records of all batches in order: per batch one
    record for each index below the shorter of the decoded results and the
    plaintexts, holding the decoded string, the plaintext, its normalised
    form and the image name; the array is indented by four spaces per
    level and characters outside ASCII are written as they are. *)
Theorem test_report (r : Runner) (w : Collaborators) (decoded : list (list string)) :
  Forall2 (reported r w) (evalDataloader w) decoded →
  let recs := pass_records (evalDataloader w) decoded in
  test r w
  = Ok (path_join (outDir (config r)) (outFileName r),
        match recs with
        | [] => "[]"
        | _ => array_text (map (λ t, encode 4 1 (json_of_record t)) recs)
        end)
  ∧ Forall2 (λ data results,
               let recs := batch_records results (transcription_plaintxt data)
                                         (image_name data) in
               length recs
               = Nat.min (length results) (length (transcription_plaintxt data))
               ∧ ∀ idx g p nm,
                   results !! idx = Some g →
                   transcription_plaintxt data !! idx = Some p →
                   image_name data !! idx = Some nm →
                   recs !! idx = Some (record_of g p nm)
                   ∧ encode 4 1 (json_of_record (record_of g p nm))
                     = record_text g p nm)
            (evalDataloader w) decoded
  ∧ (newline_indent 4 0 = newline
     ∧ newline_indent 4 1 = newline +:+ "    "
     ∧ newline_indent 4 2 = newline +:+ "        ")
  ∧ (∀ s, Forall (λ c, 128 ≤ Ascii.nat_of_ascii c)%nat
                 (String.list_ascii_of_string s) →
          encode_string s = quote +:+ s +:+ quote).
Proof.
  intros Hall recs. split_and!.
  - unfold test, test_pass.
    destruct (test_pass_loop r w _ _ Hall no_records) as (acc & -> & Hacc).
    cbn [mbind result_bind]. cbn [transliterations no_records app] in Hacc.
    rewrite Hacc. fold recs. by rewrite dump_records.
  - eapply Forall2_impl; [exact Hall|].
    intros data results [Hdec Hlen]. cbn zeta. split.
    + by apply batch_records_length.
    + intros idx g p nm Hg Hp Hn. split; [by apply batch_records_lookup|].
      apply encode_record.
  - reflexivity.
  - reflexivity.
  - reflexivity.
  - intros s Hs. unfold encode_string. by rewrite escape_non_ascii.
Qed.
End Claims.

(** ** Further properties of the collapse *)

Lemma keep_after_sublist (l : list Z) : ∀ x, keep_after x l `sublist_of` l.
Proof.
  induction l as [|y l IH]; intros x; cbn [keep_after]; [done|].
  case_bool_decide.
  - by apply sublist_cons.
  - by apply sublist_skip.
Qed.

Lemma keep_after_last (l : list Z) : ∀ x, last (x :: keep_after x l) = last (x :: l).
Proof.
  induction l as [|y l IH]; intros x; cbn [keep_after]; [done|].
  case_bool_decide as Hy.
  - rewrite IH. subst y. by rewrite !last_cons_cons.
  - rewrite !last_cons_cons. apply IH.
Qed.

Lemma keep_after_elem_of (l : list Z) : ∀ x c, c ∈ x :: keep_after x l ↔ c ∈ x :: l.
Proof.
  induction l as [|y l IH]; intros x c; cbn [keep_after]; [done|].
  case_bool_decide as Hy.
  - subst y. rewrite IH. rewrite !elem_of_cons. tauto.
  - rewrite (elem_of_cons (y :: keep_after y l)), IH. by rewrite !elem_of_cons.
Qed.

Lemma keep_after_snoc (l : list Z) : ∀ x c,
  keep_after x (l ++ [c])
  = keep_after x l ++ (if bool_decide (last (x :: l) = Some c) then [] else [c]).
Proof.
  induction l as [|y l IH]; intros x c; cbn [app keep_after].
  - cbn [last]. case_bool_decide as H1; case_bool_decide as H2; try done.
    + subst. by destruct H2.
    + injection H2 as ->. by destruct H1.
  - rewrite last_cons_cons. case_bool_decide as Hy.
    + rewrite IH. subst y. by rewrite <- (last_cons_cons x x l).
    + by rewrite IH.
Qed.

(** X1: the collapse of a non-empty sequence is a subsequence of it, in
    order, that starts and ends with the same elements. *)
Theorem collapse_subsequence (x : Z) (l : list Z) :
  ∃ out, collapse (x :: l) = Ok out
         ∧ out `sublist_of` (x :: l)
         ∧ head out = Some x
         ∧ last out = last (x :: l).
Proof.
  exists (x :: keep_after x l). rewrite collapse_cons. split_and!; try done.
  - apply sublist_skip, keep_after_sublist.
  - apply keep_after_last.
Qed.

(** X2: the collapse keeps every index that occurs in the raw sequence and
    adds none; in particular index 0 is not taken out before the sequence
    reaches the encoder. *)
Theorem collapse_keeps_every_index (x : Z) (l : list Z) :
  ∃ out, collapse (x :: l) = Ok out ∧ ∀ c, c ∈ out ↔ c ∈ x :: l.
Proof.
  exists (x :: keep_after x l). rewrite collapse_cons. split; [done|].
  intros c. apply keep_after_elem_of.
Qed.

(** X3: collapsing can be done timestep by timestep: one more timestep adds
    its index to the collapsed sequence unless it repeats the last raw
    index. *)
Theorem collapse_one_more_timestep (raw out : list Z) (c : Z) :
  collapse raw = Ok out →
  collapse (raw ++ [c])
  = Ok (if bool_decide (last raw = Some c) then out else out ++ [c]).
Proof.
  destruct raw as [|x l]; [done|]. rewrite collapse_cons. intros [= <-].
  change ((x :: l) ++ [c]) with (x :: (l ++ [c])).
  rewrite collapse_cons, keep_after_snoc.
  case_bool_decide; [by rewrite (right_id_L [] (++))|done].
Qed.

(** X4: the sequences that the collapse returns unchanged are exactly the
    non-empty sequences without equal neighbours. *)
Theorem collapse_fixed_points (raw : list Z) :
  collapse raw = Ok raw ↔ raw ≠ [] ∧ no_adjacent_eq raw.
Proof.
  destruct raw as [|x l]; [split; [done|by intros [? _]]|].
  rewrite collapse_cons. split.
  - intros [= Heq]. split; [done|]. rewrite <- Heq. apply keep_after_no_adjacent.
  - intros [_ Hno]. by rewrite keep_after_id.
Qed.

(** ** Further properties of the training loop *)

Lemma count_every_fifth (m : nat) :
  length (filter (λ i, i mod 5 = 4)%nat (seq 0 m)) = (m / 5)%nat.
Proof.
  induction m as [|m IH]; [done|].
  rewrite seq_S, filter_app, length_app, IH. cbn [plus].
  rewrite filter_cons, filter_nil.
  pose proof (Nat.div_mod_eq m 5) as Hm. pose proof (Nat.div_mod_eq (S m) 5) as HS.
  pose proof (Nat.mod_upper_bound m 5 ltac:(lia)).
  pose proof (Nat.mod_upper_bound (S m) 5 ltac:(lia)).
  destruct (decide (m mod 5 = 4)%nat) as [H4|H4]; cbn [length]; lia.
Qed.

Lemma filter_ext_in {A} (P Q : A → Prop) `{∀ x, Decision (P x)} `{∀ x, Decision (Q x)}
    (l : list A) :
  (∀ x, x ∈ l → (P x ↔ Q x)) → filter P l = filter Q l.
Proof.
  induction l as [|x l IH]; intros Hext; [done|].
  rewrite !filter_cons.
  assert (HPQ : P x ↔ Q x) by (apply Hext, list_elem_of_here).
  rewrite IH by (intros y Hy; apply Hext; by apply list_elem_of_further).
  destruct (decide (P x)), (decide (Q x)); tauto.
Qed.

Lemma stepping_batches_size1 (cfg : Configuration) (m : nat) :
  batchSize cfg = 1 →
  filter (λ i, stepping cfg (S m) i) (seq 0 (S m))
  = filter (λ i, i mod 5 = 4)%nat (seq 0 m) ++ [m].
Proof.
  intros Hb. rewrite seq_S, filter_app. cbn [plus]. f_equal.
  - apply filter_ext_in. intros i Hi%elem_of_seq. unfold stepping.
    rewrite (bool_decide_false (batchSize cfg ≠ 1)) by tauto.
    rewrite (bool_decide_false (S i = S m)) by lia.
    rewrite orb_false_r. cbn [orb]. by rewrite bool_decide_spec.
  - rewrite filter_cons, filter_nil. unfold stepping.
    rewrite (bool_decide_true (S m = S m)) by done. rewrite orb_true_r.
    by rewrite decide_True.
Qed.

Lemma stepping_last (cfg : Configuration) (m : nat) : stepping cfg (S m) m = true.
Proof. unfold stepping. rewrite (bool_decide_true (S m = S m)) by done. apply orb_true_r. Qed.



Lemma elem_of_saved_epochs (tr : list event) (e : Z) :
  SaveEpochModel e ∈ tr ↔ e ∈ saved_epochs tr.
Proof.
  unfold saved_epochs. rewrite list_elem_of_omap. split.
  - intros Hin. by exists (SaveEpochModel e).
  - intros (ev & Hin & Hev). destruct ev; try done. by injection Hev as ->.
Qed.

Lemma validated_off cfg v es : validationEpoch cfg ≤ 0 → validated cfg v es = [].
Proof.
  intros Hoff. unfold validated.
  assert (filter (λ e, validates cfg e) es = []) as ->; [|done].
  induction es as [|e es IH]; [done|]. rewrite filter_cons, IH.
  unfold validates. rewrite bool_decide_false by lia. done.
Qed.

Lemma steps_of_no_batches cfg (es : list Z) : steps_of_epochs cfg 0 es = [].
Proof. induction es as [|e es IH]; [done|]. unfold steps_of_epochs in *. by cbn. Qed.

Lemma checkpointed_off cfg (es : list Z) :
  modelSaveEpoch cfg ≤ 0 → filter (λ e, checkpointed cfg e) es = [].
Proof.
  intros Hoff. induction es as [|e es IH]; [done|].
  rewrite filter_cons, IH. unfold checkpointed.
  rewrite (bool_decide_false (0 < modelSaveEpoch cfg)) by lia.
  by rewrite andb_false_r.
Qed.

Section Runs.
Context `{Network} `{TranscriptionEncoder}.





End Runs.

(** ** Further properties of the target flattening and of validation *)

Lemma for_each_ext {S A} (f g : S → A → result S) (l : list A) :
  (∀ s x, x ∈ l → f s x = g s x) → ∀ s, for_each f s l = for_each g s l.
Proof.
  induction l as [|x l IH]; intros Hfg s; [done|].
  rewrite !for_each_cons, Hfg by apply list_elem_of_here.
  destruct (g s x) as [s'|e]; [|done]. cbn [mbind result_bind].
  apply IH. intros s0 y Hy. apply Hfg. by apply list_elem_of_further.
Qed.

Lemma getitem_Some {A} (l : list A) (i : nat) (x : A) :
  l !! i = Some x → getitem l i = Ok x.
Proof. intros Hx. unfold getitem. by rewrite Hx. Qed.

Lemma getitem_None {A} (l : list A) (i : nat) :
  l !! i = None → getitem l i = Raise IndexError.
Proof. intros Hx. unfold getitem. by rewrite Hx. Qed.

Lemma slice_to_clamped (x : list Z) (k : Z) :
  slice_to x (Z.min k (Z.of_nat (length x))) = slice_to x k.
Proof.
  unfold slice_to, slice_stop. f_equal.
  repeat case_bool_decide; lia.
Qed.

(** X11: clamping the target lengths to the width of the padded label
    tensor never changes the flattened targets, so the training loop, which
    does not clamp, and validation, which does, flatten a batch to the same
    tensor (or fail alike). *)
Theorem clamping_keeps_flattened_targets (data : Batch) :
  train_targets data
  = flatten_targets (transcription data) (safe_target_lengths data).
Proof.
  unfold train_targets, flatten_targets, safe_target_lengths.
  f_equal. apply for_each_ext. intros parts i _.
  unfold getitem, clamp_max. rewrite list_lookup_fmap.
  destruct (t_len data !! i) as [k|]; [|done]. cbn.
  by rewrite <- (row_length (transcription data) i), slice_to_clamped.
Qed.

Lemma flatten_targets_short (t : Tensor2) (lengths : list Z) :
  (length lengths < size0 t)%nat → flatten_targets t lengths = Raise IndexError.
Proof.
  intros Hshort. unfold flatten_targets, range.
  assert (Hloop : ∀ k a parts, (a ≤ length lengths < a + k)%nat →
    for_each (λ parts i, k0 ← getitem lengths i; Ok (parts ++ [slice_to (row t i) k0]))
             parts (seq a k) = Raise IndexError).
  { induction k as [|k IH]; intros a parts Ha; [lia|].
    cbn [seq]. rewrite for_each_cons.
    destruct (lengths !! a) as [k0|] eqn:Hk.
    - rewrite (getitem_Some _ _ _ Hk). cbn [mbind result_bind]. apply IH.
      apply lookup_lt_Some in Hk. lia.
    - by rewrite (getitem_None _ _ Hk). }
  rewrite (Hloop (size0 t) 0%nat []) by lia. done.
Qed.

(** X12: a batch without examples makes validation fail with
    [RuntimeError] (nothing to concatenate), and a batch with fewer target
    lengths than examples with [IndexError]; both happen before the
    consistency check. *)
Theorem validate_batch_shape_errors (w : Collaborators) (epoch : Z) (data : Batch) :
  (size0 (transcription data) = 0%nat →
   validate_batch w epoch data = Raise RuntimeError)
  ∧ ((length (t_len data) < size0 (transcription data))%nat →
     validate_batch w epoch data = Raise IndexError).
Proof.
  split; intros Hshape; unfold validate_batch.
  - by rewrite flatten_targets_no_examples.
  - rewrite flatten_targets_short; [done|].
    unfold safe_target_lengths, clamp_max. by rewrite length_map.
Qed.

Lemma tensor_sum_map_le (f g : Z → Z) (l : list Z) :
  (∀ k, f k ≤ g k) → tensor_sum (map f l) ≤ tensor_sum (map g l).
Proof.
  intros Hfg. induction l as [|k l IH]; [done|].
  cbn [map tensor_sum foldr]. unfold tensor_sum in IH. specialize (Hfg k). lia.
Qed.

Lemma tensor_sum_map_lt (f g : Z → Z) (l : list Z) :
  (∀ k, f k ≤ g k) → Exists (λ k, f k < g k) l →
  tensor_sum (map f l) < tensor_sum (map g l).
Proof.
  intros Hfg Hex. induction Hex as [k l Hk|k l _ IH].
  - cbn [map tensor_sum foldr]. pose proof (tensor_sum_map_le f g l Hfg) as Hle.
    unfold tensor_sum in Hle. lia.
  - cbn [map tensor_sum foldr]. unfold tensor_sum in IH. specialize (Hfg k). lia.
Qed.

Lemma parts_lengths (t : Tensor2) (lengths : list Z) :
  length lengths = size0 t →
  map (λ p, Z.of_nat (length p)) (target_parts t lengths)
  = map (λ k, Z.of_nat (slice_stop (size1 t) k)) lengths.
Proof.
  intros Hlen. unfold target_parts. rewrite <- list_fmap_compose.
  apply list_eq. intros i. rewrite !list_lookup_fmap. unfold range.
  destruct (decide (i < size0 t)%nat) as [Hi|Hi].
  - rewrite lookup_seq_lt by done. cbn [fmap option_fmap option_map compose].
    rewrite slice_to_length, row_length. cbn [plus].
    destruct (lookup_lt_is_Some_2 lengths i) as [k Hk]; [lia|]. by rewrite Hk.
  - rewrite lookup_seq_ge by lia. cbn.
    by rewrite (lookup_ge_None_2 lengths i) by lia.
Qed.


(** ** Further properties of construction and of the report pass *)

Lemma greedyDecode_no_timesteps `{TranscriptionEncoder} (m : Tensor2) :
  size0 m = 0%nat → (1 ≤ size1 m)%nat → greedyDecode m = Raise IndexError.
Proof.
  intros HT HN. unfold greedyDecode, range.
  destruct (size1 m) as [|n]; [lia|]. cbn [seq].
  apply for_each_raise_first. unfold column. by rewrite HT.
Qed.

Section Failures.
Context `{Network} `{TranscriptionEncoder}.

(** X14: construction in a mode other than [NONE] fails with
    [FileNotFoundError] when the checkpoint file is missing, with
    [AttributeError] when the file holds something that is not a
    dictionary, and with the error of [load_state_dict] when the state it
    is given is refused. *)
Theorem checkpoint_errors (cfg : Configuration) (mode : EvalMode) (out : string)
    (w : Collaborators) :
  mode ≠ NONE →
  let path := path_join (outDir cfg) (testModelFileName cfg) in
  (checkpoints w !! path = None →
   Runner_init cfg mode out w = Raise FileNotFoundError)
  ∧ (∀ obj, checkpoints w !! path = Some obj → (∀ d, obj ≠ PDict d) →
            Runner_init cfg mode out w = Raise AttributeError)
  ∧ (∀ d e, checkpoints w !! path = Some (PDict d) →
            load_state_dict (getModel cfg alphabetSize)
              (default (PDict d) (d !! "model_state_dict")) = Raise e →
            Runner_init cfg mode out w = Raise e).
Proof.
  intros Hmode path. unfold Runner_init, init_model, torch_load. fold path.
  rewrite bool_decide_true by done. split_and!.
  - by intros ->.
  - intros obj -> Hobj. destruct obj as [| |d]; try done. by destruct (Hobj d).
  - intros d e -> Hload. cbn [mbind result_bind keys].
    destruct (d !! "model_state_dict") as [inner|] eqn:Hkey.
    + rewrite bool_decide_true by (by rewrite elem_of_dom, Hkey).
      cbn [subscript]. rewrite Hkey. simpl in Hload. cbn [mbind result_bind].
      by rewrite Hload.
    + rewrite bool_decide_false by (by apply not_elem_of_dom).
      simpl in Hload. cbn [mbind result_bind]. by rewrite Hload.
Qed.

Lemma test_pass_raises (r : Runner) (w : Collaborators) (e : exn)
    (pre post : list Batch) (decoded : list (list string)) (data : Batch) :
  Forall2 (reported r w) pre decoded →
  (∀ acc, test_batch r w acc data = Raise e) →
  ∀ acc, for_each (test_batch r w) acc (pre ++ data :: post) = Raise e.
Proof.
  intros Hpre Hraise. induction Hpre as [|b results pre decoded [Hdec Hlen] _ IH];
    intros acc; cbn [app]; rewrite for_each_cons.
  - by rewrite Hraise.
  - destruct (test_batch_spec r w acc b results Hdec) as [Hok _].
    destruct (Hok Hlen) as (acc1 & -> & _). cbn [mbind result_bind]. apply IH.
Qed.

(** X15: the report pass fails with [IndexError], and writes no report,
    as soon as a batch has fewer image names than the shorter of its
    decoded results and its plaintexts. *)
Theorem report_needs_image_names (r : Runner) (w : Collaborators)
    (pre post : list Batch) (decoded : list (list string)) (data : Batch)
    (results : list string) :
  evalDataloader w = pre ++ data :: post →
  Forall2 (reported r w) pre decoded →
  decode_fn r (max_index_of w data) = Ok results →
  (length (image_name data)
   < Nat.min (length results) (length (transcription_plaintxt data)))%nat →
  test r w = Raise IndexError.
Proof.
  intros Hloader Hpre Hdec Hshort. unfold test, test_pass. rewrite Hloader.
  rewrite (test_pass_raises r w IndexError pre post decoded data Hpre); [done|].
  intros acc. destruct (test_batch_spec r w acc data results Hdec) as [_ Hraise].
  by apply Hraise.
Qed.

End Failures.

(** ** Properties of the score extraction *)

Lemma chars_append (a b : string) :
  String.list_ascii_of_string (a +:+ b)
  = String.list_ascii_of_string a ++ String.list_ascii_of_string b.
Proof.
  induction a as [|c a IH]; [done|].
  rewrite append_cons. cbn [String.list_ascii_of_string app]. by rewrite IH.
Qed.

Lemma string_of_chars_app (l1 l2 : list Ascii.ascii) :
  String.string_of_list_ascii (l1 ++ l2)
  = String.string_of_list_ascii l1 +:+ String.string_of_list_ascii l2.
Proof.
  induction l1 as [|c l1 IH]; [done|].
  cbn [app String.string_of_list_ascii]. by rewrite append_cons, IH.
Qed.

Lemma chars_length (s : string) :
  length (String.list_ascii_of_string s) = String.length s.
Proof. induction s as [|c s IH]; [done|]. cbn. by rewrite IH. Qed.

Lemma segment_no_slash (seg : list Ascii.ascii) : ∀ acc,
  slash ∉ seg →
  foldl (λ seg c, if bool_decide (c = slash) then [] else seg ++ [c]) acc seg
  = acc ++ seg.
Proof.
  induction seg as [|c seg IH]; intros acc Hno.
  - by rewrite (right_id_L [] (++)).
  - apply not_elem_of_cons in Hno as [Hc Hseg]. cbn [foldl].
    rewrite bool_decide_false by congruence. rewrite IH by done.
    by rewrite <- (assoc_L (++)).
Qed.

Lemma last_segment_after_slash (pre seg : list Ascii.ascii) :
  slash ∉ seg → last_segment (pre ++ slash :: seg) = seg.
Proof.
  intros Hno. unfold last_segment. rewrite foldl_app. cbn [foldl].
  rewrite bool_decide_true by done. by rewrite segment_no_slash.
Qed.

Lemma last_segment_whole (seg : list Ascii.ascii) :
  slash ∉ seg → last_segment seg = seg.
Proof. intros Hno. unfold last_segment. by rewrite segment_no_slash. Qed.

Lemma last_segment_has_no_slash (s : list Ascii.ascii) : slash ∉ last_segment s.
Proof.
  unfold last_segment.
  assert (Hinv : ∀ acc, slash ∉ acc →
    slash ∉ foldl (λ seg c, if bool_decide (c = slash) then [] else seg ++ [c]) acc s).
  { induction s as [|c s IH]; intros acc Hacc; [done|]. cbn [foldl]. apply IH.
    case_bool_decide as Hc; [apply not_elem_of_nil|].
    rewrite elem_of_app, list_elem_of_singleton. intros [?|?]; [done|congruence]. }
  apply Hinv, not_elem_of_nil.
Qed.


(** X18: the name of a score file never contains a slash, so every score
    file lies directly in the scores directory, whatever the image name. *)
Theorem score_file_is_flat (imageName : string) :
  slash ∉ String.list_ascii_of_string (score_file_name imageName).
Proof.
  unfold score_file_name, all_but_last4.
  rewrite chars_append, String.list_ascii_of_string_of_list_ascii, elem_of_app.
  intros [Hin|Hin].
  - apply (last_segment_has_no_slash (String.list_ascii_of_string imageName)).
    eapply elem_of_sublist; [exact Hin|apply sublist_take].
  - cbn in Hin. rewrite !elem_of_cons, elem_of_nil in Hin.
    destruct Hin as [?|[?|[?|[]]]]; discriminate.
Qed.

Lemma extract_examples_loop (scoresDir : string) (w : Collaborators) (b : nat)
    (data : Batch) (l : list string) : ∀ (pre : list string) (written : list ScoreFile),
  image_name data = pre ++ l →
  ((length pre + length l ≤ size1 (max_index_of w data))%nat →
   for_each (extract_example scoresDir w b data) written (seq (length pre) (length l))
   = Ok (written
         ++ imap (λ i name, (path_join scoresDir (score_file_name name),
                             (b, length pre + i)%nat)) l))
  ∧ ((length pre ≤ size1 (max_index_of w data) < length pre + length l)%nat →
     for_each (extract_example scoresDir w b data) written (seq (length pre) (length l))
     = Raise IndexError).
Proof.
  induction l as [|name l IH]; intros pre written Hnames.
  - split; [|cbn; lia]. intros _. cbn. by rewrite (right_id_L [] (++)).
  - cbn [length seq]. rewrite for_each_cons.
    assert (Hget : getitem (image_name data) (length pre) = Ok name).
    { apply getitem_Some. rewrite Hnames, lookup_app_r by lia.
      by replace (length pre - length pre)%nat with 0%nat by lia. }
    assert (Hbody : extract_example scoresDir w b data written (length pre)
                    = if bool_decide (length pre < size1 (max_index_of w data))%nat
                      then Ok (written ++ [(path_join scoresDir (score_file_name name),
                                            (b, length pre))])
                      else Raise IndexError).
    { unfold extract_example. by rewrite Hget. }
    rewrite Hbody. clear Hbody.
    destruct (IH (pre ++ [name]) (written ++ [(path_join scoresDir (score_file_name name),
                                               (b, length pre))]))
      as [IHok IHraise]; [by rewrite <- (assoc_L (++))|].
    rewrite length_app in IHok, IHraise. cbn [length] in IHok, IHraise.
    replace (length pre + 1)%nat with (S (length pre)) in IHok, IHraise by lia.
    split; intros Hfit.
    + rewrite bool_decide_true by lia. cbn [mbind result_bind]. rewrite IHok by lia.
      rewrite <- (assoc_L (++)). cbn [app]. rewrite imap_cons. do 3 f_equal.
      * by replace (length pre + 0)%nat with (length pre) by lia.
      * apply imap_ext. intros i x _. cbn. do 2 f_equal. lia.
    + case_bool_decide as Hlt; [|done]. cbn [mbind result_bind]. apply IHraise. lia.
Qed.

Lemma extract_batch_ok (scoresDir : string) (w : Collaborators) (b : nat)
    (data : Batch) (written : list ScoreFile) :
  (length (image_name data) ≤ size1 (max_index_of w data))%nat →
  for_each (extract_example scoresDir w b data) written
           (range (length (image_name data)))
  = Ok (written ++ batch_score_files scoresDir b data).
Proof.
  intros Hfit.
  destruct (extract_examples_loop scoresDir w b data (image_name data) [] written eq_refl)
    as [Hok _].
  exact (Hok Hfit).
Qed.

Lemma extract_batch_raises (scoresDir : string) (w : Collaborators) (b : nat)
    (data : Batch) (written : list ScoreFile) :
  (size1 (max_index_of w data) < length (image_name data))%nat →
  for_each (extract_example scoresDir w b data) written
           (range (length (image_name data)))
  = Raise IndexError.
Proof.
  intros Hshort.
  destruct (extract_examples_loop scoresDir w b data (image_name data) [] written eq_refl)
    as [_ Hraise].
  apply Hraise. cbn. lia.
Qed.

Section Extraction.
Context `{Network}.

Lemma extract_batches_loop (r : Runner) (w : Collaborators) (l : list Batch) :
  ∀ (a : nat) (written : list ScoreFile),
    Forall (λ data, length (image_name data) ≤ size1 (max_index_of w data))%nat l →
    for_each (λ written item,
                for_each (extract_example (path_join (outDir (config r)) "scores")
                                          w item.1 item.2) written
                         (range (length (image_name item.2))))
             written (zip (seq a (length l)) l)
    = Ok (written
          ++ concat (imap (λ i data,
                             batch_score_files (path_join (outDir (config r)) "scores")
                                               (a + i) data) l)).
Proof.
  induction l as [|data l IH]; intros a written Hfit.
  - cbn. by rewrite (right_id_L [] (++)).
  - inversion_clear Hfit as [|?? Hdata Hl].
    cbn [length seq zip zip_with]. rewrite for_each_cons. cbn [fst snd].
    rewrite extract_batch_ok by done. cbn [mbind result_bind].
    rewrite IH by done. rewrite imap_cons. cbn [concat].
    rewrite <- (assoc_L (++)).
    replace (a + 0)%nat with a by lia. do 4 f_equal.
    apply imap_ext. intros i x _. cbn. f_equal. lia.
Qed.

Lemma extract_batches_raise (r : Runner) (w : Collaborators) (pre : list Batch)
    (data : Batch) (post : list Batch) :
  ∀ (a : nat) (written : list ScoreFile),
    Forall (λ data, length (image_name data) ≤ size1 (max_index_of w data))%nat pre →
    (size1 (max_index_of w data) < length (image_name data))%nat →
    for_each (λ written item,
                for_each (extract_example (path_join (outDir (config r)) "scores")
                                          w item.1 item.2) written
                         (range (length (image_name item.2))))
             written
             (zip (seq a (length (pre ++ data :: post))) (pre ++ data :: post))
    = Raise IndexError.
Proof.
  induction pre as [|b pre IH]; intros a written Hpre Hdata.
  - cbn [app length seq zip zip_with]. rewrite for_each_cons. cbn [fst snd].
    by rewrite extract_batch_raises.
  - inversion_clear Hpre as [|?? Hb Hrest].
    cbn [app length seq zip zip_with]. rewrite for_each_cons. cbn [fst snd].
    rewrite extract_batch_ok by done. cbn [mbind result_bind]. by apply IH.
Qed.

(** X19: score extraction writes one file per image name of every batch,
    in order, provided no batch has more image names than the second
    dimension of its model output; the first batch that has more makes it
    fail with [IndexError]. *)
Theorem extract_scores_files (r : Runner) (w : Collaborators) :
  let fits data :=
    (length (image_name data) ≤ size1 (max_index_of w data))%nat in
  (Forall fits (evalDataloader w) →
   extractCtcScores r w
   = Ok (concat (imap (batch_score_files (path_join (outDir (config r)) "scores"))
                      (evalDataloader w))))
  ∧ (∀ pre data post,
       evalDataloader w = pre ++ data :: post →
       Forall fits pre → ¬ fits data →
       extractCtcScores r w = Raise IndexError).
Proof.
  intros fits. split.
  - intros Hfit.
    exact (extract_batches_loop r w (evalDataloader w) 0 [] Hfit).
  - intros pre data post Hloader Hpre Hdata.
    unfold extractCtcScores, enumerate. rewrite Hloader.
    apply (extract_batches_raise r w pre data post 0 [] Hpre).
    unfold fits in Hdata. lia.
Qed.

(** X20: two images of a batch whose names lead to the same score file
    name leave one file, which holds the scores of the second. *)
Theorem score_files_collide (r : Runner) (w : Collaborators) (data : Batch)
    (name1 name2 : string) :
  evalDataloader w = [data] →
  image_name data = [name1; name2] →
  (2 ≤ size1 (max_index_of w data))%nat →
  score_file_name name1 = score_file_name name2 →
  ∃ writes,
    extractCtcScores r w = Ok writes
    ∧ length writes = 2%nat
    ∧ files_after writes
      = {[ path_join (path_join (outDir (config r)) "scores") (score_file_name name2)
           := (0%nat, 1%nat) ]}.
Proof.
  intros Hloader Hnames Hfit Hsame.
  assert (Hall : Forall (λ data, length (image_name data)
                                 ≤ size1 (max_index_of w data))%nat
                        (evalDataloader w)).
  { rewrite Hloader. apply Forall_singleton. rewrite Hnames. cbn. lia. }
  pose proof (extract_batches_loop r w (evalDataloader w) 0 [] Hall) as Hok.
  eexists. split; [exact Hok|].
  rewrite Hloader. cbn [imap concat app]. unfold batch_score_files.
  rewrite Hnames. cbn.
  split; [done|]. unfold files_after. cbn. rewrite Hsame.
  by rewrite insert_insert_eq.
Qed.
End Extraction.

(** ** Properties of the report text *)

Lemma hex_digit_printable (n : nat) :
  Forall (λ c, 32 ≤ Ascii.nat_of_ascii c)%nat
         (String.list_ascii_of_string (hex_digit n)).
Proof.
  unfold hex_digit.
  do 15 (destruct n as [|n]; [repeat constructor; cbn; lia|]).
  repeat constructor; cbn; lia.
Qed.

Lemma escape_char_printable (c : Ascii.ascii) :
  Forall (λ c, 32 ≤ Ascii.nat_of_ascii c)%nat
         (String.list_ascii_of_string (escape_char c)).
Proof.
  unfold escape_char.
  repeat match goal with
         | |- context [(?n =? ?m)%nat] =>
             destruct (Nat.eqb_spec n m); [repeat constructor; cbn; lia|]
         end.
  destruct (Nat.ltb_spec (Ascii.nat_of_ascii c) 32).
  - rewrite !chars_append, !Forall_app. split_and!; try apply hex_digit_printable;
      repeat constructor; cbn; lia.
  - repeat constructor. cbn. lia.
Qed.

(** X21: the escaped form of a string holds no control character: a line
    break or a tab inside a decoded text, a plaintext or an image name never
    breaks a line of the report. *)
Theorem escape_has_no_control_character (s : string) :
  Forall (λ c, 32 ≤ Ascii.nat_of_ascii c)%nat
         (String.list_ascii_of_string (escape s)).
Proof.
  induction s as [|c s IH]; [constructor|].
  cbn [escape]. rewrite chars_append, Forall_app. split; [|exact IH].
  apply escape_char_printable.
Qed.

(** ** The statements on sample data *)

Import Samples.

Lemma sample_init (n : Z) (batches : list Batch) (file : pyobj) :
  Runner_init (sample_config n) NONE "test.json" (sample_world batches file)
  = Ok (sample_runner n).
Proof. reflexivity. Qed.

Lemma sample_validate (e : Z) :
  validate (sample_world [sample_batch] flat_checkpoint) e = Ok (np_mean [sample_loss e]).
Proof. reflexivity. Qed.


Lemma collapse_merges_adjacent_duplicates_witness :
  no_adjacent_eq [7; 3; 7; 0; 3] ∧ collapse [7; 3; 7; 0; 3] = Ok [7; 3; 7; 0; 3].
Proof.
  assert (H : no_adjacent_eq [7; 3; 7; 0; 3]) by (simpl; repeat split; lia).
  split; [exact H|].
  exact (proj2 (proj2 (proj2 (proj1 collapse_merges_adjacent_duplicates 7 [3; 7; 0; 3]))) H).
Defined.


Lemma sample_stops_at_6 :
  stops_at (sample_config 10) (λ e, np_mean [sample_loss e]) 6.
Proof.
  unfold stops_at, stop_condition.
  assert (Hb : (running_best (validated (sample_config 10) (λ e, np_mean [sample_loss e])
                  (epoch_range 6))).2 = 4) by (vm_compute; reflexivity).
  rewrite Hb. cbn. lia.
Qed.

Lemma sample_best_epoch (n : nat) :
  (n ≤ 5)%nat →
  Z.of_nat n
  - (running_best (validated (sample_config 10) (λ e, np_mean [sample_loss e])
                     (epoch_range (Z.of_nat n)))).2 < 2.
Proof.
  intros Hn.
  do 6 (destruct n as [|n]; [vm_compute; reflexivity|]). lia.
Qed.



Lemma decode_is_always_greedy_witness :
  decode_fn (sample_runner 4) sample_output = Ok ["aba"; "c"]
  ∧ init_decode (sample_config 4) sample_output
    = init_decode {| device := "cpu"; batchSize := 8; epochs := 1; clipNorm := zero;
                     modelSaveEpoch := 0; validationEpoch := 0;
                     earlyStoppingEpochCount := 0; warmup := 0;
                     decodingMethod := GREEDY; outDir := "out";
                     testModelFileName := "m.pth" |} sample_output.
Proof.
  destruct decode_is_always_greedy as (_ & Hrun & Hsame).
  split.
  - rewrite (Hrun (sample_config 4) NONE "test.json"
               (sample_world [sample_batch] flat_checkpoint) (sample_runner 4)
               (sample_init 4 _ _)).
    reflexivity.
  - apply Hsame. reflexivity.
Defined.

Lemma checkpoint_formats_witness :
  init_model (sample_config 4) TEST (sample_world [] flat_checkpoint)
  = Ok {| weights := Some flat_checkpoint; on_device := "cuda" |}
  ∧ init_model (sample_config 4) VALIDATION (sample_world [] wrapped_checkpoint)
    = Ok {| weights := Some (PDict {[ "fc.weight" := PTensor [2%nat] [7; 9] ]});
            on_device := "cuda" |}
  ∧ init_model (sample_config 4) NONE (sample_world [] wrapped_checkpoint)
    = Ok {| weights := None; on_device := "cuda" |}.
Proof.
  split_and!.
  - destruct (checkpoint_formats (sample_config 4) TEST (sample_world [] flat_checkpoint))
      as (Hflat & _).
    rewrite (Hflat {[ "fc.weight" := PTensor [2%nat] [7; 9] ]});
      [reflexivity|discriminate|reflexivity|reflexivity].
  - destruct (checkpoint_formats (sample_config 4) VALIDATION
                (sample_world [] wrapped_checkpoint)) as (_ & Hwrap & _).
    rewrite (Hwrap {[ "model_state_dict" := PDict {[ "fc.weight" := PTensor [2%nat] [7; 9] ]};
                      "epoch" := PInt 4 ]}
               (PDict {[ "fc.weight" := PTensor [2%nat] [7; 9] ]}));
      [reflexivity|discriminate|reflexivity|reflexivity].
  - destruct (checkpoint_formats (sample_config 4) NONE (sample_world [] wrapped_checkpoint))
      as (_ & _ & Hnone & _).
    rewrite Hnone; reflexivity.
Defined.

Lemma test_report_witness :
  ∃ text,
    test (sample_runner 4) (sample_world [sample_batch] flat_checkpoint)
    = Ok ("out/test.json", text)
    ∧ text = array_text [record_text "aba" "ab" "lines/a.png";
                         record_text "c" "abc" "lines/b.png"].
Proof.
  destruct (test_report (sample_runner 4) (sample_world [sample_batch] flat_checkpoint)
              [["aba"; "c"]]) as (Htest & _).
  { repeat constructor. }
  eexists. split; [exact Htest|]. reflexivity.
Defined.

Lemma greedyDecode_timesteps_witness :
  greedyDecode sample_output = Ok ["aba"; "c"]
  ∧ greedyDecode no_timesteps = Raise IndexError
  ∧ greedyDecode empty_output = Ok [].
Proof.
  pose proof (greedyDecode_timesteps sample_output) as [H1 _].
  destruct (H1 ltac:(simpl; lia)) as (outs & Hc & Hd & _).
  split.
  - rewrite Hd. vm_compute in Hc. injection Hc as <-. reflexivity.
  - split.
    + apply greedyDecode_timesteps; simpl; lia.
    + apply greedyDecode_timesteps. reflexivity.
Defined.

(** With no timestep and no batch element [greedyDecode] returns the empty
    list: it does not fail for every output without timesteps. *)
Lemma greedyDecode_no_timesteps_empty_batch :
  size0 empty_output = 0%nat ∧ greedyDecode empty_output = Ok [].
Proof. split; reflexivity. Qed.


(** ** The further properties on sample data *)

Ltac no_slash := apply (bool_decide_unpack _); vm_compute; exact I.

Lemma fresh_init (cfg : Configuration) (w : Collaborators) :
  Runner_init cfg NONE "test.json" w = Ok (fresh_runner cfg).
Proof. reflexivity. Qed.

Lemma idle_validate (e : Z) : validate idle_world e = Ok (np_mean [sample_loss e]).
Proof. reflexivity. Qed.

Lemma collapse_one_more_timestep_witness :
  collapse [1; 1; 2] = Ok [1; 2]
  ∧ collapse ([1; 1; 2] ++ [2]) = Ok [1; 2]
  ∧ collapse ([1; 1; 2] ++ [1]) = Ok [1; 2; 1].
Proof.
  assert (H : collapse [1; 1; 2] = Ok [1; 2]) by reflexivity.
  split_and!; [exact H| |].
  - exact (collapse_one_more_timestep [1; 1; 2] [1; 2] 2 H).
  - exact (collapse_one_more_timestep [1; 1; 2] [1; 2] 1 H).
Defined.

Lemma collapse_fixed_points_witness :
  no_adjacent_eq [7; 3; 7] ∧ collapse [7; 3; 7] = Ok [7; 3; 7].
Proof.
  assert (H : no_adjacent_eq [7; 3; 7]) by (simpl; repeat split; lia).
  split; [exact H|].
  apply (proj2 (collapse_fixed_points [7; 3; 7])). split; [discriminate|exact H].
Defined.







Lemma validate_batch_shape_errors_witness :
  validate_batch idle_world 1 no_examples = Raise RuntimeError
  ∧ validate_batch idle_world 1 short_lengths = Raise IndexError.
Proof.
  split.
  - apply (validate_batch_shape_errors idle_world 1 no_examples). reflexivity.
  - apply (validate_batch_shape_errors idle_world 1 short_lengths). cbn. lia.
Defined.


Lemma checkpoint_errors_witness :
  Runner_init (sample_config 4) TEST "test.json" idle_world = Raise FileNotFoundError
  ∧ Runner_init (sample_config 4) TEST "test.json" (sample_world [] (PInt 4))
    = Raise AttributeError
  ∧ Runner_init (sample_config 4) VALIDATION "test.json"
      (sample_world [] (PDict {[ "model_state_dict" := PInt 4 ]}))
    = Raise TypeError.
Proof.
  split_and!.
  - apply (checkpoint_errors (sample_config 4) TEST "test.json" idle_world);
      [discriminate|reflexivity].
  - apply (proj1 (proj2 (checkpoint_errors (sample_config 4) TEST "test.json"
                           (sample_world [] (PInt 4)) ltac:(discriminate)))
             (PInt 4)); [reflexivity|discriminate].
  - apply (proj2 (proj2 (checkpoint_errors (sample_config 4) VALIDATION "test.json"
                           (sample_world [] (PDict {[ "model_state_dict" := PInt 4 ]}))
                           ltac:(discriminate)))
             {[ "model_state_dict" := PInt 4 ]}); reflexivity.
Defined.

Lemma report_needs_image_names_witness :
  test (sample_runner 4) (sample_world [sample_batch; unnamed_batch] flat_checkpoint)
  = Raise IndexError.
Proof.
  apply (report_needs_image_names (sample_runner 4)
           (sample_world [sample_batch; unnamed_batch] flat_checkpoint)
           [sample_batch] [] [["aba"; "c"]] unnamed_batch ["aba"; "c"]).
  - reflexivity.
  - repeat constructor.
  - reflexivity.
  - cbn. lia.
Defined.



Lemma extract_scores_files_witness :
  extractCtcScores (sample_runner 4)
    (sample_world [sample_batch; sample_batch] flat_checkpoint)
  = Ok [("out/scores/a.pt", (0, 0)); ("out/scores/b.pt", (0, 1));
        ("out/scores/a.pt", (1, 0)); ("out/scores/b.pt", (1, 1))]%nat
  ∧ extractCtcScores (sample_runner 4)
      (sample_world [sample_batch; crowded_batch] flat_checkpoint)
    = Raise IndexError.
Proof.
  split.
  - apply (proj1 (extract_scores_files (sample_runner 4)
                    (sample_world [sample_batch; sample_batch] flat_checkpoint))).
    repeat constructor.
  - apply (proj2 (extract_scores_files (sample_runner 4)
                    (sample_world [sample_batch; crowded_batch] flat_checkpoint))
             [sample_batch] crowded_batch []).
    + reflexivity.
    + repeat constructor.
    + cbn. lia.
Defined.

Lemma score_files_collide_witness :
  ∃ writes,
    extractCtcScores (sample_runner 4) (sample_world [twin_batch] flat_checkpoint)
    = Ok writes
    ∧ length writes = 2%nat
    ∧ files_after writes = {[ "out/scores/x.pt" := (0%nat, 1%nat) ]}.
Proof.
  exact (score_files_collide (sample_runner 4) (sample_world [twin_batch] flat_checkpoint)
           twin_batch "train/x.png" "test/x.jpg" eq_refl eq_refl ltac:(cbn; lia) eq_refl).
Defined.
